(** * Officials dataset auditor: the four inspection scripts, embedded and verified

    The repository is four Python scripts over one JSON results file:
    [analyze_officials.py], [check_officials.py], [deep_check_officials.py]
    and [verify_matching_games.py].  A block of a script that fills a result
    variable is embedded as a function of the loaded record list that returns
    the variable's final value; what the scripts print is read off these
    values and is not modelled.

    Data.  A record is typed as the dataset's schema has it: [domain] a
    string, [success] a boolean, official names strings or null.  What the
    scripts' lookups tell apart is kept: a key can be absent, hold null, or
    hold a value ([field]); a value read from a dict can be [None]
    ([option]); a dict is its item list in insertion order, because the
    scripts iterate dicts and the order of their output follows from it.
    A [str] is the list of its code points, here below 256.

    Effects.  A block that can raise returns in the error monad [py]; a loop
    that appends to a list is a left fold that appends; [random.sample] is a
    relation between the population and a sample. *)

From Stdlib Require Import Ascii String.
From stdpp Require Import base option list strings gmap sorting.

(** ** Python values and operations the scripts use *)

Module Py.

Inductive exn : Type :=
| KeyError (key : string)
| TypeError
| AttributeError
| FileNotFoundError
| IsADirectoryError
| PermissionError
| UnicodeDecodeError
| JSONDecodeError.

(** The names of the class of an exception and of its base classes, in the
    order of Python's method resolution. *)
Definition classes (e : exn) : list string :=
  match e with
  | KeyError _ => ["KeyError"; "LookupError"; "Exception"; "BaseException"]
  | TypeError => ["TypeError"; "Exception"; "BaseException"]
  | AttributeError => ["AttributeError"; "Exception"; "BaseException"]
  | FileNotFoundError => ["FileNotFoundError"; "OSError"; "Exception"; "BaseException"]
  | IsADirectoryError => ["IsADirectoryError"; "OSError"; "Exception"; "BaseException"]
  | PermissionError => ["PermissionError"; "OSError"; "Exception"; "BaseException"]
  | UnicodeDecodeError =>
      ["UnicodeDecodeError"; "UnicodeError"; "ValueError"; "Exception"; "BaseException"]
  | JSONDecodeError => ["JSONDecodeError"; "ValueError"; "Exception"; "BaseException"]
  end.

(** A computation that returns or raises. *)
Inductive py (A : Type) : Type :=
| Raise (e : exn)
| Return (a : A).
Arguments Raise {A} e.
Arguments Return {A} a.

#[global] Instance py_ret : MRet py := fun A a => Return a.
#[global] Instance py_bind : MBind py :=
  fun A B f m => match m with Raise e => Raise e | Return a => f a end.

(** [for x in xs: body], threading the variables the body assigns. *)
Fixpoint for_each {A S : Type} (xs : list A) (body : S -> A -> py S) (s : S) : py S :=
  match xs with
  | [] => Return s
  | x :: rest => s' ← body s x; for_each rest body s'
  end.

(** Truth value testing ([if x:]). *)
Class Truthy (A : Type) := truthy : A -> bool.
#[global] Instance truthy_bool : Truthy bool := fun b => b.
#[global] Instance truthy_str : Truthy string :=
  fun s => match s with EmptyString => false | String _ _ => true end.
#[global] Instance truthy_list {A} : Truthy (list A) :=
  fun l => match l with [] => false | _ :: _ => true end.
#[global] Instance truthy_option {A} `{Truthy A} : Truthy (option A) :=
  fun o => match o with None => false | Some a => truthy a end.

(** [v is not None] *)
Definition is_not_None {A} (v : option A) : bool :=
  match v with None => false | Some _ => true end.

(** *** dict: the items in insertion order *)

Abbreviation dict V := (list (string * V)).

Definition keys {V} (d : dict V) : list string := d.*1.
Definition values {V} (d : dict V) : list V := d.*2.

Fixpoint lookup_key {V} (d : dict V) (k : string) : option V :=
  match d with
  | [] => None
  | (k', v) :: rest => if decide (k' = k) then Some v else lookup_key rest k
  end.

(** [d.get(k, default)] *)
Definition dict_get {V} (d : dict V) (k : string) (dflt : V) : V :=
  match lookup_key d k with Some v => v | None => dflt end.

(** [d[k] = v]: an existing key keeps its place, a new key goes last. *)
Fixpoint setitem {V} (d : dict V) (k : string) (v : V) : dict V :=
  match d with
  | [] => [(k, v)]
  | (k', v') :: rest =>
      if decide (k' = k) then (k', v) :: rest else (k', v') :: setitem rest k v
  end.

(** *** A key of a record: absent, null, or a value *)

Inductive field (A : Type) : Type :=
| Absent
| Null
| Value (a : A).
Arguments Absent {A}.
Arguments Null {A}.
Arguments Value {A} a.

(** [result.get(key)] *)
Definition get {A} (f : field A) : option A :=
  match f with Absent => None | Null => None | Value a => Some a end.

(** [result.get(key, default)]: the default stands in for an absent key only. *)
Definition get_or {A} (f : field A) (dflt : A) : option A :=
  match f with Absent => Some dflt | Null => None | Value a => Some a end.

(** [result[key]] *)
Definition subscript {A} (key : string) (f : field A) : py (option A) :=
  match f with
  | Absent => Raise (KeyError key)
  | Null => Return None
  | Value a => Return (Some a)
  end.

(** *** str *)

Definition code (c : ascii) : nat := nat_of_ascii c.

(** [str.lower] on one code point: A-Z and the Latin-1 capitals. *)
Definition lower_char (c : ascii) : ascii :=
  let n := code c in
  if (65 <=? n) && (n <=? 90)
     || (192 <=? n) && (n <=? 222) && negb (n =? 215)
  then ascii_of_nat (n + 32) else c.

Fixpoint lower (s : string) : string :=
  match s with
  | EmptyString => EmptyString
  | String c rest => String (lower_char c) (lower rest)
  end.

(** The code points [str.split()] splits on. *)
Definition isspace (c : ascii) : bool :=
  let n := code c in
  (9 <=? n) && (n <=? 13) || (28 <=? n) && (n <=? 32) || (n =? 133) || (n =? 160).

(** [word] is the part being read, [None] between parts. *)
Fixpoint split_from (word : option string) (s : string) : list string :=
  match s with
  | EmptyString => match word with Some w => [w] | None => [] end
  | String c rest =>
      if isspace c
      then match word with
           | Some w => w :: split_from None rest
           | None => split_from None rest
           end
      else split_from (Some (default EmptyString word +:+ String c EmptyString)) rest
  end.

(** [s.split()] *)
Definition split (s : string) : list string := split_from None s.

Fixpoint startswith (s prefix : string) {struct prefix} : bool :=
  match prefix, s with
  | EmptyString, _ => true
  | String a p, String b rest => bool_decide (a = b) && startswith rest p
  | String _ _, EmptyString => false
  end.

(** [sub in s] *)
Fixpoint contains (s sub : string) : bool :=
  startswith s sub
  || match s with
     | EmptyString => false
     | String _ rest => contains rest sub
     end.

(** [\d] *)
Definition isdigit (c : ascii) : bool :=
  let n := code c in (48 <=? n) && (n <=? 57).

(** [$]: at the end of the string, or just before a newline that ends it. *)
Definition at_dollar (s : string) : bool :=
  match s with
  | EmptyString => true
  | String c EmptyString => code c =? 10
  | String _ (String _ _) => false
  end.

(** [re.match(r'\d+$', s)] *)
Fixpoint match_digits_dollar (s : string) : bool :=
  match s with
  | EmptyString => false
  | String c rest => isdigit c && (at_dollar rest || match_digits_dollar rest)
  end.

(** [re.search(r'\d+$', s)], as a truth value: a match at some position. *)
Fixpoint search_digits_dollar (s : string) : bool :=
  match_digits_dollar s
  || match s with
     | EmptyString => false
     | String _ rest => search_digits_dollar rest
     end.

(** *** collections.Counter *)

(** [c[x] += 1] *)
Definition incr (c : dict nat) (x : string) : dict nat :=
  setitem c x (dict_get c x 0 + 1).

(** [Counter(xs)] *)
Definition Counter (xs : list string) : dict nat := foldl incr [] xs.

(** Stable insertion into a list sorted by descending count: [x] goes in
    front of the first item whose count is not larger. *)
Fixpoint insert_desc (x : string * nat) (l : dict nat) : dict nat :=
  match l with
  | [] => [x]
  | y :: rest => if y.2 <=? x.2 then x :: y :: rest else y :: insert_desc x rest
  end.

(** [sorted(items, key=itemgetter(1), reverse=True)]: a stable sort. *)
Definition sorted_desc (items : dict nat) : dict nat := foldr insert_desc [] items.

(** [c.most_common(n)] and [c.most_common()] *)
Definition most_common (c : dict nat) (n : option nat) : dict nat :=
  match n with
  | Some n => take n (sorted_desc c)
  | None => sorted_desc c
  end.

(** *** random.sample *)

(** [random.sample(population, k)] returns the elements at [k] distinct
    positions; which ones is not determined. *)
Definition sample_of {A} (population : list A) (k : nat) (result : list A) : Prop :=
  ∃ positions : list nat,
    NoDup positions ∧ length positions = k ∧
    Forall2 (fun i x => population !! i = Some x) positions result.

(** *** The pattern of the deep check's name test *)

(** [[A-Z]] and [[a-z]] *)
Definition isupper_az (c : ascii) : bool :=
  let n := code c in (65 <=? n) && (n <=? 90).

Definition islower_az (c : ascii) : bool :=
  let n := code c in (97 <=? n) && (n <=? 122).

(** [[a-z]+] and then what [k] matches: the longest run is tried first, a
    shorter one when [k] fails after it. *)
Fixpoint lowers_then (k : string → bool) (s : string) : bool :=
  match s with
  | EmptyString => false
  | String c rest => islower_az c && (lowers_then k rest || k rest)
  end.

(** [[A-Z][a-z]+] and then [k] *)
Definition capital_word_then (k : string → bool) (s : string) : bool :=
  match s with
  | EmptyString => false
  | String c rest => isupper_az c && lowers_then k rest
  end.

(** One space and then [k] *)
Definition space_then (k : string → bool) (s : string) : bool :=
  match s with
  | EmptyString => false
  | String c rest => (code c =? 32) && k rest
  end.

(** [re.match(r'^[A-Z][a-z]+ [A-Z][a-z]+$', s)], as a truth value *)
Definition match_two_words (s : string) : bool :=
  capital_word_then (space_then (capital_word_then at_dollar)) s.

(** [s.count(' ')] *)
Fixpoint count_spaces (s : string) : nat :=
  match s with
  | EmptyString => 0
  | String c rest => (if code c =? 32 then 1 else 0) + count_spaces rest
  end.

End Py.
Import Py.

(** ** The dataset *)

Record GameResult : Type := {
  domain : string;
  success : bool;
  school : field string;
  gameInfo : field (dict (option string));
  officials : field (dict (option string))
}.

(** ** analyze_officials.py *)

Module AnalyzeOfficials.

(** One item of [no_officials]. *)
Record entry : Type := {
  e_domain : string;
  e_school : option string;
  e_opponent : option string;
  e_officials_data : dict (option string)
}.

(** [sum(1 for v in officials.values() if v is not None)] *)
Definition non_null_count (officials : dict (option string)) : nat :=
  length (List.filter is_not_None (values officials)).

(** [result.get('gameInfo', {}).get('opponent', 'Unknown')] *)
Definition opponent_of (result : GameResult) : py (option string) :=
  match get_or (gameInfo result) [] with
  | None => Raise AttributeError
  | Some info => Return (dict_get info "opponent" (Some "Unknown"))
  end.

Definition visit (no_officials : list entry) (result : GameResult) : py (list entry) :=
  if success result then
    match get_or (officials result) [] with
    | Some officials =>
        if non_null_count officials =? 0 then
          opponent ← opponent_of result;
          Return (no_officials ++
                    [ {| e_domain := domain result;
                         e_school := get_or (school result) (domain result);
                         e_opponent := opponent;
                         e_officials_data := officials |} ])
        else Return no_officials
    | None => Return no_officials
    end
  else Return no_officials.

Definition no_officials (results : list GameResult) : py (list entry) :=
  for_each results visit [].

End AnalyzeOfficials.

(** ** check_officials.py *)

Module CheckOfficials.

Definition common_placeholder_names : list string :=
  ["john doe"; "jane doe"; "jane smith"; "john smith"; "test name"; "example name"].

(** One item of [suspicious_names]. *)
Record flag : Type := {
  f_school : string;
  f_position : string;
  f_name : string;
  f_reason : string
}.

Definition mk_flag (school position name reason : string) : flag :=
  {| f_school := school; f_position := position; f_name := name; f_reason := reason |}.

(** [name_lower in common_placeholder_names] *)
Definition is_placeholder (name : string) : bool :=
  bool_decide (lower name ∈ common_placeholder_names).

(** [len(parts) == 2 and parts[0] == parts[1]] for [parts = name.split()] *)
Definition is_repetitive (name : string) : bool :=
  let parts := split name in
  (length parts =? 2) && bool_decide (parts !! 0 = parts !! 1).

(** [re.search(r'\d+$', name)] *)
Definition is_numbered (name : string) : bool := search_digits_dollar name.

(** The three [if] statements on one name, in the order of the script;
    [school] is [result['domain']]. *)
Definition flags_of (school position name : string) : list flag :=
  (if is_placeholder name then [mk_flag school position name "Common placeholder name"] else [])
  ++ (if is_repetitive name then [mk_flag school position name "Repetitive pattern"] else [])
  ++ (if is_numbered name then [mk_flag school position name "Contains numbers"] else []).

(** The two lists the loop fills. *)
Record collected : Type := {
  all_officials : list string;
  suspicious_names : list flag
}.

(** The body of [for position, name in officials.items()]. *)
Definition visit_item (result : GameResult) (st : collected)
    (item : string * option string) : collected :=
  let '(position, name) := item in
  if truthy name then
    match name with
    | Some name =>
        {| all_officials := all_officials st ++ [name];
           suspicious_names := suspicious_names st ++ flags_of (domain result) position name |}
    | None => st
    end
  else st.

(** The body of [for result in data['results']]. *)
Definition visit (st : collected) (result : GameResult) : collected :=
  if success result && truthy (get (officials result)) then
    match officials result with
    | Value officials => foldl (visit_item result) st officials
    | Absent | Null => st
    end
  else st.

Definition collect (results : list GameResult) : collected :=
  foldl visit {| all_officials := []; suspicious_names := [] |} results.

(** [name_counts = Counter(all_officials)] *)
Definition name_counts (results : list GameResult) : dict nat :=
  Counter (all_officials (collect results)).

(** [{name: count for name, count in name_counts.items() if count > 1}] *)
Definition duplicate_officials (results : list GameResult) : dict nat :=
  List.filter (fun item => 1 <? item.2) (name_counts results).

(** What the statistics lines print. *)
Record statistics : Type := {
  total : nat;
  unique : nat;
  top10 : dict nat
}.

Definition name_statistics (results : list GameResult) : statistics :=
  let names := all_officials (collect results) in
  {| total := length names;
     unique := size (list_to_set names : gset string);
     top10 := most_common (name_counts results) (Some 10) |}.

(** [random.sample(all_officials, min(20, len(all_officials)))] *)
Definition sample_officials (results : list GameResult) (sample : list string) : Prop :=
  let names := all_officials (collect results) in
  sample_of names (min 20 (length names)) sample.

(** [[name for name in all_officials if len(name.split()) == 1]] *)
Definition single_names (results : list GameResult) : list string :=
  List.filter (fun name => length (split name) =? 1) (all_officials (collect results)).

(** [single_names[:10]], the names the last block prints. *)
Definition shown_single_names (results : list GameResult) : list string :=
  take 10 (single_names results).

End CheckOfficials.

(** ** deep_check_officials.py *)

Module DeepCheck.

Definition schools_to_check : list string :=
  ["rolltide.com"; "floridagators.com"; "georgiadogs.com"; "texaslonghorns.com";
   "ohiostatebuckeyes.com"].

(** What the first block prints for one school: the heading's opponent and
    the [position: name] lines. *)
Record shown : Type := {
  s_school : string;
  s_opponent : option string;
  s_lines : list (string * string)
}.

(** [result['gameInfo']['opponent']] *)
Definition opponent_of (result : GameResult) : py (option string) :=
  info ← subscript "gameInfo" (gameInfo result);
  match info with
  | None => Raise TypeError
  | Some info =>
      match lookup_key info "opponent" with
      | None => Raise (KeyError "opponent")
      | Some opponent => Return opponent
      end
  end.

(** [for position, name in officials.items(): if name: print(...)] *)
Definition named_lines (officials : dict (option string)) : list (string * string) :=
  omap (fun item : string * option string =>
          if truthy item.2 then pair item.1 <$> item.2 else None) officials.

Definition show (school : string) (result : GameResult) : py shown :=
  opponent ← opponent_of result;
  match get_or (officials result) [] with
  | None => Raise AttributeError
  | Some officials =>
      Return {| s_school := school; s_opponent := opponent; s_lines := named_lines officials |}
  end.

(** The inner loop with its [break]: only the first matching record is shown. *)
Fixpoint first_match (school : string) (results : list GameResult) : py (list shown) :=
  match results with
  | [] => Return []
  | result :: rest =>
      if bool_decide (domain result = school) && success result
      then s ← show school result; Return [s]
      else first_match school rest
  end.

Definition check_schools (results : list GameResult) : py (list shown) :=
  for_each schools_to_check
    (fun (printed : list shown) school => s ← first_match school results; Return (printed ++ s)) [].

(** The body of [for position, name in officials.items()] that builds
    [officials_list]. *)
Definition add_token (officials_list : list string) (item : string * option string)
    : list string :=
  let '(position, name) := item in
  if truthy name then
    match name with
    | Some name => officials_list ++ [position +:+ ":" +:+ name]
    | None => officials_list
    end
  else officials_list.

Definition visit_school (officials_by_school : dict (gset string)) (result : GameResult)
    : dict (gset string) :=
  if success result && truthy (get (officials result)) then
    match officials result with
    | Value officials =>
        let school := domain result in
        let officials_list := foldl add_token [] officials in
        if truthy officials_list
        then setitem officials_by_school school (list_to_set officials_list)
        else officials_by_school
    | Absent | Null => officials_by_school
    end
  else officials_by_school.

Definition officials_by_school (results : list GameResult) : dict (gset string) :=
  foldl visit_school [] results.

(** [range(a, b)] *)
Definition range (a b : nat) : list nat := seq a (b - a).

(** The two nested index loops over [schools_list].  The indices come from
    [range(len(schools_list))] and the keys from the dict itself, so neither
    subscript can raise. *)
Definition identical_pairs (by_school : dict (gset string)) : list (string * string) :=
  let schools_list := keys by_school in
  foldl (fun crews i =>
    foldl (fun crews j =>
      let school1 := schools_list !!! i in
      let school2 := schools_list !!! j in
      if bool_decide (lookup_key by_school school1 = lookup_key by_school school2)
      then crews ++ [(school1, school2)]
      else crews)
      crews (range (i + 1) (length schools_list)))
    [] (range 0 (length schools_list)).

Definition identical_crews (results : list GameResult) : list (string * string) :=
  identical_pairs (officials_by_school results).

(** [all_names]: the flattened [(domain, position, name)] entries. *)
Definition add_name (result : GameResult) (all_names : list (string * string * string))
    (item : string * option string) : list (string * string * string) :=
  let '(position, name) := item in
  if truthy name then
    match name with
    | Some name => all_names ++ [(domain result, position, name)]
    | None => all_names
    end
  else all_names.

(** The loops of the last three blocks share their head:
    [if result['success'] and result.get('officials'):
       for position, name in result['officials'].items()]. *)
Definition over_officials {S} (body : GameResult -> S -> string * option string -> S)
    (st : S) (result : GameResult) : S :=
  if success result && truthy (get (officials result)) then
    match officials result with
    | Value officials => foldl (body result) st officials
    | Absent | Null => st
    end
  else st.

Definition all_names (results : list GameResult) : list (string * string * string) :=
  foldl (over_officials add_name) [] results.

(** [if name: position_counts[position] += 1] *)
Definition count_position (result : GameResult) (position_counts : dict nat)
    (item : string * option string) : dict nat :=
  let '(position, name) := item in
  if truthy name then incr position_counts position else position_counts.

Definition position_counts (results : list GameResult) : dict nat :=
  foldl (over_officials count_position) [] results.

(** [position_counts.most_common()] *)
Definition position_frequency (results : list GameResult) : dict nat :=
  most_common (position_counts results) None.

Definition suspicious_keywords : list string :=
  ["test"; "example"; "sample"; "demo"; "placeholder"; "temp"; "dummy"].

(** [for keyword in suspicious_keywords: if keyword in name_lower: append] *)
Definition scan_name (result : GameResult)
    (found_suspicious : list (string * string * string))
    (item : string * option string) : list (string * string * string) :=
  let '(position, name) := item in
  if truthy name then
    match name with
    | Some name =>
        let name_lower := lower name in
        foldl (fun found keyword =>
                 if contains name_lower keyword
                 then found ++ [(domain result, position, name)]
                 else found)
          found_suspicious suspicious_keywords
    | None => found_suspicious
    end
  else found_suspicious.

Definition found_suspicious (results : list GameResult) : list (string * string * string) :=
  foldl (over_officials scan_name) [] results.

(** The tests of the generic-pattern block on one name.  [None] stands for
    the [IndexError] of [parts[0]] or [parts[1]] on a list that is too
    short. *)
Definition is_generic (name : string) : option bool :=
  if match_two_words name && (String.length name <? 12) then
    if count_spaces name =? 1 then
      let parts := split name in
      first ← parts !! 0;
      if String.length first <? 5
      then second ← parts !! 1; Some (String.length second <? 6)
      else Some false
    else Some false
  else Some false.

(** The body of the loop that fills [generic_patterns]; once an exception is
    raised the list is lost. *)
Definition add_generic (result : GameResult)
    (generic_patterns : option (list (string * string * string * string)))
    (item : string * option string) : option (list (string * string * string * string)) :=
  let '(position, name) := item in
  found ← generic_patterns;
  if truthy name then
    match name with
    | Some name =>
        generic ← is_generic name;
        Some (if generic : bool
              then found ++ [(domain result, position, name, "Very short simple name")]
              else found)
    | None => Some found
    end
  else Some found.

Definition generic_patterns (results : list GameResult)
    : option (list (string * string * string * string)) :=
  foldl (over_officials add_generic) (Some []) results.

End DeepCheck.

(** ** verify_matching_games.py *)

Module VerifyMatchingGames.

(** [school_games[result['domain']] = result['gameInfo'].get('opponent', 'Unknown')] *)
Definition visit (school_games : dict (option string)) (result : GameResult)
    : dict (option string) :=
  if success result && truthy (get (gameInfo result)) then
    match gameInfo result with
    | Value info => setitem school_games (domain result) (dict_get info "opponent" (Some "Unknown"))
    | Absent | Null => school_games
    end
  else school_games.

Definition school_games (results : list GameResult) : dict (option string) :=
  foldl visit [] results.

Definition pairs_to_check : list (string * string) :=
  [("rolltide.com", "ulmwarhawks.com");
   ("floridagators.com", "gousfbulls.com");
   ("lsusports.net", "latechsports.com");
   ("mutigers.com", "kuathletics.com");
   ("hawkeyesports.com", "cyclones.com");
   ("uhcougars.com", "riceowls.com");
   ("navysports.com", "uabsports.com");
   ("troytrojans.com", "clemsontigers.com")].

(** [sub in opp], where [opp] may be [None]. *)
Definition occurs_in (sub : string) (opp : option string) : py bool :=
  match opp with
  | None => Raise TypeError
  | Some s => Return (contains s sub)
  end.

(** [a or b or ...], left to right, stopping at the first true operand. *)
Fixpoint any_of (tests : list (py bool)) : py bool :=
  match tests with
  | [] => Return false
  | t :: rest => t ≫= fun b : bool => if b then Return true else any_of rest
  end.

(** The [if]/[elif] chain: every branch prints the same line, so the chain
    prints it when one of its conditions, tried in order, is true. *)
Definition playing_each_other (opp1 opp2 : option string) : py bool :=
  any_of
    [ any_of [occurs_in "Alabama" opp2; occurs_in "ULM" opp1];
      any_of [occurs_in "Florida" opp2; occurs_in "South Florida" opp1; occurs_in "USF" opp1];
      any_of [occurs_in "LSU" opp2; occurs_in "Louisiana Tech" opp1; occurs_in "LA Tech" opp1];
      any_of [occurs_in "Missouri" opp2; occurs_in "Kansas" opp1];
      any_of [occurs_in "Iowa State" opp1; occurs_in "Iowa" opp2];
      any_of [occurs_in "Houston" opp2; occurs_in "Rice" opp1];
      any_of [occurs_in "Navy" opp2; occurs_in "UAB" opp1];
      any_of [occurs_in "Clemson" opp2; occurs_in "Troy" opp1] ].

(** What is printed for one pair. *)
Record verdict : Type := {
  v_school1 : string;
  v_opp1 : option string;
  v_school2 : string;
  v_opp2 : option string;
  v_each_other : bool
}.

Definition check_pair (games : dict (option string)) (pair : string * string) : py verdict :=
  let '(school1, school2) := pair in
  let opp1 := dict_get games school1 (Some "Not found") in
  let opp2 := dict_get games school2 (Some "Not found") in
  each_other ← playing_each_other opp1 opp2;
  Return {| v_school1 := school1; v_opp1 := opp1;
            v_school2 := school2; v_opp2 := opp2;
            v_each_other := each_other |}.

Definition known_pairs (results : list GameResult) : py (list verdict) :=
  let games := school_games results in
  for_each pairs_to_check
    (fun (printed : list verdict) pair => v ← check_pair games pair; Return (printed ++ [v])) [].

Definition major_schools : list string :=
  ["georgiadogs.com"; "ohiostatebuckeyes.com"; "clemsontigers.com"; "texaslonghorns.com"].

(** What the last block prints for one school: the heading and the two
    lines, each when its test passes. *)
Record sampled : Type := {
  m_school : string;
  m_referee : option string;
  m_umpire : option string
}.

(** [officials[key]] under [if officials.get(key):] *)
Definition named_at (officials : dict (option string)) (key : string) : option string :=
  let value := dict_get officials key None in
  if truthy value then value else None.

(** [if officials and any(officials.values()): ...] for
    [officials = result.get('officials', {})] *)
Definition sample_of_record (school : string) (result : GameResult) : list sampled :=
  match get_or (officials result) [] with
  | Some officials =>
      if truthy officials && existsb truthy (values officials)
      then [ {| m_school := school;
                m_referee := named_at officials "referee";
                m_umpire := named_at officials "umpire" |} ]
      else []
  | None => []
  end.

(** The inner loop with its [break]. *)
Fixpoint first_major (school : string) (results : list GameResult) : list sampled :=
  match results with
  | [] => []
  | result :: rest =>
      if bool_decide (domain result = school) && success result
      then sample_of_record school result
      else first_major school rest
  end.

Definition sample_majors (results : list GameResult) : list sampled :=
  foldl (fun printed school => printed ++ first_major school results) [] major_schools.

End VerifyMatchingGames.

(** ** Loading the dataset *)

Module Loader.

(** The decoded document: a JSON object, of which the scripts read the
    [results] key and nothing else, or another JSON value (an array, a
    string, a number, [true], [false] or [null]). *)
Inductive Document : Type :=
| JObject (results : field (list GameResult))
| JOther.

(** The path every script opens. *)
Definition path : string :=
  "/Users/markscrivo/Downloads/officialstest1/test-results-09-06-25.json".

(** What is at a path, as [open(path, 'r')] and the read of [json.load]
    find it: nothing, a directory, a file the process may not read, a file
    whose bytes are no text in the encoding, or a file with its text. *)
Inductive file : Type :=
| Missing
| Directory
| Denied
| Undecodable
| Text (text : string).

Section Load.

(** The file system. *)
Variable files : string → file.

(** The decoder of the [json] module, [json.loads]: [None] when it rejects
    the text.  It is Python's decoder, which also accepts the literals
    [NaN], [Infinity] and [-Infinity] that JSON does not have. *)
Variable json_decode : string → option Document.

(** [open(path, 'r')] and [f.read()] *)
Definition read_text : py string :=
  match files path with
  | Missing => Raise FileNotFoundError
  | Directory => Raise IsADirectoryError
  | Denied => Raise PermissionError
  | Undecodable => Raise UnicodeDecodeError
  | Text text => Return text
  end.

(** [with open(path, 'r') as f: data = json.load(f)] *)
Definition load : py Document :=
  text ← read_text;
  match json_decode text with
  | None => Raise JSONDecodeError
  | Some data => Return data
  end.

(** [data['results']], as [for result in data['results']] iterates it: a
    document that is no object cannot be subscripted with a string, and
    [None] cannot be iterated. *)
Definition records (data : Document) : py (list GameResult) :=
  match data with
  | JOther => Raise TypeError
  | JObject results =>
      value ← subscript "results" results;
      match value with
      | None => Raise TypeError
      | Some rs => Return rs
      end
  end.

Definition dataset : py (list GameResult) := data ← load; records data.

(** The scripts, from the file to their result variables. *)
Definition analyze_officials : py (list AnalyzeOfficials.entry) :=
  d ← dataset; AnalyzeOfficials.no_officials d.

Definition check_officials
    : py (CheckOfficials.collected * CheckOfficials.statistics * list string) :=
  d ← dataset;
  Return (CheckOfficials.collect d, CheckOfficials.name_statistics d,
          CheckOfficials.single_names d).

Definition deep_check_officials
    : py (list DeepCheck.shown * list (string * string) * dict nat
          * list (string * string * string)) :=
  d ← dataset;
  shown ← DeepCheck.check_schools d;
  Return (shown, DeepCheck.identical_crews d, DeepCheck.position_frequency d,
          DeepCheck.found_suspicious d).

Definition verify_matching_games : py (list VerifyMatchingGames.verdict) :=
  d ← dataset; VerifyMatchingGames.known_pairs d.

End Load.

(** A file system with nothing in it, one with the one file, and a decoder
    that knows one text. *)
Definition no_file (p : string) : file := Missing.

Definition one_file (text : string) (p : string) : file :=
  if decide (p = path) then Text text else Missing.

Definition decodes (text : string) (data : Document) (t : string) : option Document :=
  if decide (t = text) then Some data else None.

End Loader.

(** ** The checks as the specification words them

    These definitions follow the sentences of the specification and of the
    claims, not the scripts; the properties below compare the two.  Where a
    sentence does not hold of the scripts, the wording that does is given
    next to it. *)

Module Spec.

(** "its officials mapping (defaulting to empty when the field is absent or
    null)" *)
Definition officials_or_empty (r : GameResult) : dict (option string) :=
  match officials r with
  | Value m => m
  | Absent | Null => []
  end.

(** "is empty or has every value null" *)
Definition all_null (m : dict (option string)) : bool :=
  forallb (fun v => bool_decide (v = None)) (values m).

(** "its school name falling back to the domain when absent" *)
Definition school_or_domain (r : GameResult) : option string :=
  match school r with
  | Absent => Some (domain r)
  | Null => None
  | Value s => Some s
  end.

(** "its opponent falling back to "Unknown" when absent": the [gameInfo]
    mapping or its [opponent] key may be the absent part. *)
Definition opponent_or_unknown (r : GameResult) : option string :=
  match gameInfo r with
  | Absent | Null => Some "Unknown"
  | Value info =>
      match lookup_key info "opponent" with
      | None => Some "Unknown"
      | Some opponent => opponent
      end
  end.

(** How a record is reported by the "no officials extracted" check. *)
Definition reported (r : GameResult) (data : dict (option string)) : AnalyzeOfficials.entry :=
  {| AnalyzeOfficials.e_domain := domain r;
     AnalyzeOfficials.e_school := school_or_domain r;
     AnalyzeOfficials.e_opponent := opponent_or_unknown r;
     AnalyzeOfficials.e_officials_data := data |}.

(** The output of the "no officials extracted" check as the claim has it. *)
Definition claimed_no_officials (d : list GameResult) : list AnalyzeOfficials.entry :=
  (fun r => reported r (officials_or_empty r))
    <$> List.filter (fun r => success r && all_null (officials_or_empty r)) d.

(** The records the script reports: successful, with the [officials] key
    absent or holding a mapping whose values are all null.  A record whose
    [officials] key holds null is not among them. *)
Definition lacks_officials (r : GameResult) : bool :=
  success r &&
  match officials r with
  | Absent => true
  | Null => false
  | Value m => all_null m
  end.

Definition expected_no_officials (d : list GameResult) : list AnalyzeOfficials.entry :=
  (fun r => reported r (officials_or_empty r)) <$> List.filter lacks_officials d.

(** The flattened OfficialEntry list: the [(domain, position, name)] triples
    of the successful records, in input order.  A name enters when it is
    neither null nor the empty string. *)
Definition named (item : string * option string) : option (string * string) :=
  match item.2 with
  | Some name => if decide (name = "") then None else Some (item.1, name)
  | None => None
  end.

Definition entries_of (r : GameResult) : list (string * string * string) :=
  if success r then
    match officials r with
    | Value m => (fun pn : string * string => (domain r, pn.1, pn.2)) <$> omap named m
    | Absent | Null => []
    end
  else [].

Definition entries (d : list GameResult) : list (string * string * string) :=
  d ≫= entries_of.

(** *** The three predicates of the suspicious-name check *)

Fixpoint all_chars (p : ascii → bool) (s : string) : bool :=
  match s with
  | EmptyString => true
  | String c rest => p c && all_chars p rest
  end.

Definition placeholders : list string :=
  ["john doe"; "jane doe"; "jane smith"; "john smith"; "test name"; "example name"].

(** A capital letter: A-Z, and among the code points below 256 also the
    capitals of Latin-1 (192-222 without the multiplication sign 215). *)
Definition capital (c : ascii) : bool :=
  let n := code c in
  (65 <=? n) && (n <=? 90) || (192 <=? n) && (n <=? 222) && negb (n =? 215).

(** The same letter, in either case: the same code point, or a capital and
    its small letter, which stands 32 places after it. *)
Definition same_letter (a b : ascii) : bool :=
  bool_decide (a = b)
  || capital a && (code b =? code a + 32)
  || capital b && (code a =? code b + 32).

(** The same string but for the case of its letters. *)
Fixpoint same_ignoring_case (a b : string) : bool :=
  match a, b with
  | EmptyString, EmptyString => true
  | String x a, String y b => same_letter x y && same_ignoring_case a b
  | EmptyString, String _ _ | String _ _, EmptyString => false
  end.

(** "case-insensitive exact membership in the fixed placeholder set" *)
Definition placeholder (name : string) : Prop :=
  ∃ p, p ∈ placeholders ∧ same_ignoring_case name p = true.

(** A run of whitespace. *)
Definition blank (s : string) : Prop := all_chars isspace s = true.

(** A part of a split: not empty, no whitespace in it. *)
Definition part (s : string) : Prop :=
  s ≠ "" ∧ all_chars (fun c => negb (isspace c)) s = true.

(** "splitting into exactly two whitespace-separated parts that are
    identical case-sensitively": the same part twice, whitespace between the
    two, and nothing but whitespace around them. *)
Definition two_identical_parts (name : string) : Prop :=
  ∃ p before between after,
    part p ∧ blank before ∧ blank between ∧ between ≠ "" ∧ blank after
    ∧ name = before +:+ p +:+ between +:+ p +:+ after.

(** One or more decimal digits. *)
Definition digits (s : string) : Prop := s ≠ "" ∧ all_chars isdigit s = true.

(** "ending in one or more decimal digits" *)
Definition ends_in_digits (name : string) : Prop :=
  ∃ front ds, digits ds ∧ name = front +:+ ds.

(** Ending in one or more decimal digits, or in such digits and one line
    feed after them. *)
Definition ends_in_digits_or_digits_line_feed (name : string) : Prop :=
  ∃ front ds, digits ds
    ∧ (name = front +:+ ds ∨ name = front +:+ ds +:+ String "010"%char "").

(** The name starts with the keyword, in either case. *)
Fixpoint starts_ignoring_case (name keyword : string) {struct keyword} : bool :=
  match keyword, name with
  | EmptyString, _ => true
  | String k keyword, String c name => same_letter c k && starts_ignoring_case name keyword
  | String _ _, EmptyString => false
  end.

(** "the keyword occurs case-insensitively as a substring of the name": the
    name, or what is left of it after some of its characters, starts with
    the keyword in either case. *)
Fixpoint occurs_ignoring_case (keyword name : string) : bool :=
  starts_ignoring_case name keyword
  || match name with
     | EmptyString => false
     | String _ rest => occurs_ignoring_case keyword rest
     end.

(** The same, said with the part of the name that is the keyword. *)
Definition occurs_somewhere_ignoring_case (keyword name : string) : Prop :=
  ∃ front mid back,
    name = front +:+ mid +:+ back ∧ same_ignoring_case mid keyword = true.

(** Where a part ends: at the end of the string or in front of whitespace. *)
Definition part_ends (rest : string) : Prop :=
  match rest with
  | EmptyString => True
  | String c _ => isspace c = true
  end.

(** The last character is a decimal digit. *)
Fixpoint last_is_digit (s : string) : bool :=
  match s with
  | EmptyString => false
  | String c EmptyString => isdigit c
  | String _ rest => last_is_digit rest
  end.

(** The keywords of the fixed set that occur in a name. *)
Definition keywords : list string :=
  ["test"; "example"; "sample"; "demo"; "placeholder"; "temp"; "dummy"].

Definition matched_keywords (name : string) : list string :=
  List.filter (fun keyword => occurs_ignoring_case keyword name) keywords.

(** *** Name statistics *)

(** The distinct elements of a list, in the order they are first seen. *)
Fixpoint first_seen (xs : list string) : list string :=
  match xs with
  | [] => []
  | x :: rest => x :: filter (fun y => y ≠ x) (first_seen rest)
  end.

(** How often [x] occurs in [xs]. *)
Definition occurrences (x : string) (xs : list string) : nat :=
  length (filter (fun y => y = x) xs).

(** Where [x] is first seen in [xs]. *)
Fixpoint first_index (x : string) (xs : list string) : nat :=
  match xs with
  | [] => 0
  | y :: rest => if decide (y = x) then 0 else S (first_index x rest)
  end.

(** Descending count, ties decided by [tie]. *)
Definition by_count_then (tie : relation (string * nat)) : relation (string * nat) :=
  fun a b => b.2 < a.2 ∨ (a.2 = b.2 ∧ tie a b).

(** "ordered by descending occurrence count with ties broken by first-seen
    order": [a] stands in front of [b]. *)
Definition ranks_before (names : list string) : relation (string * nat) :=
  by_count_then (fun a b => first_index a.1 names < first_index b.1 names).

(** Every distinct name once, with its occurrence count. *)
Definition tally (names : list string) : dict nat :=
  (fun n => (n, occurrences n names)) <$> first_seen names.

(** *** Crews *)

(** The ["position:name"] tokens of a record: one per flattened entry. *)
Definition tokens_of (r : GameResult) : list string :=
  (fun e : string * string * string => e.1.2 +:+ ":" +:+ e.2) <$> entries_of r.

(** The crew of a domain: the token set of the last record of that domain
    that has a token.  (A later record of a domain replaces an earlier one,
    as the assignment [officials_by_school[school] = ...] does.) *)
Definition crew (d : list GameResult) (school : string) : option (gset string) :=
  (fun r => list_to_set (tokens_of r))
    <$> last (filter (fun r => domain r = school ∧ tokens_of r ≠ []) d).

(** The pairs of a list: each element with each later one. *)
Fixpoint ordered_pairs {A} (l : list A) : list (A * A) :=
  match l with
  | [] => []
  | x :: rest => (pair x <$> rest) ++ ordered_pairs rest
  end.

(** A pair is reported in one order or the other. *)
Definition reported_pair (d : list GameResult) (a b : string) : Prop :=
  (a, b) ∈ DeepCheck.identical_crews d ∨ (b, a) ∈ DeepCheck.identical_crews d.

(** *** Empty names *)

(** The record with every empty-string official value replaced by null. *)
Definition blank_to_null (r : GameResult) : GameResult :=
  {| domain := domain r;
     success := success r;
     school := school r;
     gameInfo := gameInfo r;
     officials :=
       match officials r with
       | Value m =>
           Value ((fun item : string * option string =>
                     (item.1, if decide (item.2 = Some "") then None else item.2)) <$> m)
       | Absent => Absent
       | Null => Null
       end |}.

(** A successful record whose official values are all the empty string,
    and that has one at least. *)
Definition only_blank_names (r : GameResult) : Prop :=
  success r = true
  ∧ ∃ m, officials r = Value m ∧ m ≠ [] ∧ Forall (fun item => item.2 = Some "") m.

(** *** Loading *)

(** "fails with a ParseError": what is raised is of the class of that name,
    or of a class derived from it. *)
Definition is_a (name : string) (e : exn) : Prop := name ∈ classes e.

End Spec.

(** ** The checks, by name *)

Module Auditor.

Inductive check : Type :=
| NoOfficials
| SuspiciousNames
| NameStatistics
| SingleNames
| CheckSchools
| IdenticalCrews
| PositionFrequency
| KeywordScan
| KnownPairs
| RandomSample.

(** What a check gives: its result variable, or the exception raised. *)
Inductive report : Type :=
| NoOfficialsReport (r : py (list AnalyzeOfficials.entry))
| SuspiciousNamesReport (r : list CheckOfficials.flag)
| NameStatisticsReport (r : CheckOfficials.statistics)
| SingleNamesReport (r : list string)
| CheckSchoolsReport (r : py (list DeepCheck.shown))
| IdenticalCrewsReport (r : list (string * string))
| PositionFrequencyReport (r : dict nat)
| KeywordScanReport (r : list (string * string * string))
| KnownPairsReport (r : py (list VerifyMatchingGames.verdict))
| RandomSampleReport (r : list string).

(** The deterministic checks are functions of the dataset. *)
Definition run (c : check) (d : list GameResult) : option report :=
  match c with
  | NoOfficials => Some (NoOfficialsReport (AnalyzeOfficials.no_officials d))
  | SuspiciousNames =>
      Some (SuspiciousNamesReport (CheckOfficials.suspicious_names (CheckOfficials.collect d)))
  | NameStatistics => Some (NameStatisticsReport (CheckOfficials.name_statistics d))
  | SingleNames => Some (SingleNamesReport (CheckOfficials.single_names d))
  | CheckSchools => Some (CheckSchoolsReport (DeepCheck.check_schools d))
  | IdenticalCrews => Some (IdenticalCrewsReport (DeepCheck.identical_crews d))
  | PositionFrequency => Some (PositionFrequencyReport (DeepCheck.position_frequency d))
  | KeywordScan => Some (KeywordScanReport (DeepCheck.found_suspicious d))
  | KnownPairs => Some (KnownPairsReport (VerifyMatchingGames.known_pairs d))
  | RandomSample => None
  end.

(** One run of a check on a dataset yields a report.  The random sample is
    the one step whose report the dataset does not determine. *)
Inductive yields (d : list GameResult) : check → report → Prop :=
| yields_run (c : check) (r : report) :
    run c d = Some r → yields d c r
| yields_sample (sample : list string) :
    CheckOfficials.sample_officials d sample →
    yields d RandomSample (RandomSampleReport sample).

End Auditor.

(** ** Sample records *)

Module Sample.

Definition line_feed : string := String "010"%char "".

(** The specification's example: every official value is null. *)
Definition all_null : GameResult :=
  {| domain := "a.com"; success := true; school := Absent; gameInfo := Absent;
     officials := Value [("referee", None); ("umpire", None)] |}.

(** A successful record whose [officials] key holds null. *)
Definition null_officials : GameResult :=
  {| domain := "a.com"; success := true; school := Absent; gameInfo := Absent;
     officials := Null |}.

(** A successful record whose [gameInfo] key holds null and whose
    [officials] key is absent. *)
Definition null_gameInfo : GameResult :=
  {| domain := "b.com"; success := true; school := Value "B State"; gameInfo := Null;
     officials := Absent |}.

(** A successful record of a school of [schools_to_check] without [gameInfo]. *)
Definition rolltide_bare : GameResult :=
  {| domain := "rolltide.com"; success := true; school := Absent; gameInfo := Absent;
     officials := Absent |}.

(** A successful record of a school of [schools_to_check] whose [officials]
    key holds null. *)
Definition rolltide_null_officials : GameResult :=
  {| domain := "rolltide.com"; success := true; school := Absent;
     gameInfo := Value [("opponent", Some "ULM")]; officials := Null |}.

Definition failed : GameResult :=
  {| domain := "c.com"; success := false; school := Value "C College"; gameInfo := Null;
     officials := Value [("referee", Some "Test Test")] |}.

Definition crew : dict (option string) :=
  [("referee", Some "Jane Roe"); ("umpire", Some "Jim Poe")].

Definition home : GameResult :=
  {| domain := "d.com"; success := true; school := Value "D Tech";
     gameInfo := Value [("opponent", Some "E Poly")]; officials := Value crew |}.

Definition away : GameResult :=
  {| domain := "e.com"; success := true; school := Null;
     gameInfo := Value [("date", Some "09-06-25")];
     officials := Value (reverse crew ++ [("judge", None); ("clock", Some "")]) |}.

Definition odd_names : GameResult :=
  {| domain := "f.com"; success := true; school := Absent; gameInfo := Null;
     officials := Value [("referee", Some "John Doe"); ("umpire", Some "Smith Smith");
                         ("judge", Some "Referee2"); ("linesman", Some "A1 A1");
                         ("clock", Some "Test Example")] |}.

(** A name that ends in a digit and a line feed. *)
Definition trailing_line_feed : GameResult :=
  {| domain := "g.com"; success := true; school := Absent; gameInfo := Absent;
     officials := Value [("referee", Some ("Referee2" +:+ line_feed))] |}.

(** A successful record whose only official values are empty strings. *)
Definition blank_names : GameResult :=
  {| domain := "h.com"; success := true; school := Absent; gameInfo := Absent;
     officials := Value [("referee", Some ""); ("umpire", Some "")] |}.

Definition dataset : list GameResult :=
  [all_null; failed; home; away; odd_names; blank_names].

(** A second record of the domain of [home], with another crew. *)
Definition home_again : GameResult :=
  {| domain := "d.com"; success := true; school := Value "D Tech";
     gameInfo := Value [("opponent", Some "F State")];
     officials := Value [("referee", Some "John Doe")] |}.

(** A successful record of a school of [schools_to_check] and of
    [pairs_to_check] whose only official values are empty strings. *)
Definition rolltide_blank : GameResult :=
  {| domain := "rolltide.com"; success := true; school := Absent;
     gameInfo := Value [("opponent", Some "ULM")];
     officials := Value [("referee", Some ""); ("umpire", Some "")] |}.

(** The two sides of the first pair of [pairs_to_check], and one side of the
    second. *)
Definition alabama_ulm : list GameResult :=
  [ {| domain := "rolltide.com"; success := true; school := Value "Alabama";
       gameInfo := Value [("opponent", Some "ULM")]; officials := Value crew |};
    {| domain := "ulmwarhawks.com"; success := true; school := Value "ULM";
       gameInfo := Value [("opponent", Some "Alabama")]; officials := Value crew |};
    {| domain := "floridagators.com"; success := true; school := Value "Florida";
       gameInfo := Value [("date", Some "09-06-25")]; officials := Absent |} ].

End Sample.

(** ** What the scripts compute, stated on the records

    The definitions the further properties of the scripts are stated with. *)

Module Facts.

(** *** Counting *)

(** The sum of the counts of a counter. *)
Definition total_count (c : dict nat) : nat := sum_list (values c).

(** *** Single-word names *)

(** What [len(name.split()) == 1] accepts: one part, with nothing but
    whitespace around it. *)
Definition one_part (name : string) : Prop :=
  ∃ before p after,
    Spec.blank before ∧ Spec.part p ∧ Spec.blank after
    ∧ name = before +:+ p +:+ after.

(** *** Games *)

(** A record enters [school_games]: it is successful and its [gameInfo] is a
    mapping that is not empty. *)
Definition has_game (r : GameResult) : bool :=
  success r &&
  match gameInfo r with
  | Value (_ :: _) => true
  | Value [] | Absent | Null => false
  end.

(** The opponent such a record lists: ["Unknown"] without the key, [None]
    when the key holds null. *)
Definition listed_opponent (r : GameResult) : option string :=
  match gameInfo r with
  | Value info =>
      match lookup_key info "opponent" with
      | Some opponent => opponent
      | None => Some "Unknown"
      end
  | Absent | Null => Some "Unknown"
  end.

(** The game of a domain: the opponent its last record with a game lists. *)
Definition game (d : list GameResult) (school : string) : option (option string) :=
  listed_opponent <$> last (filter (fun r => domain r = school ∧ has_game r = true) d).

(** Which opponent a test of the chain looks at. *)
Inductive side : Type :=
| Opp1
| Opp2.

(** The tests of the [if]/[elif] chain, in the order they are tried. *)
Definition tests : list (string * side) :=
  [("Alabama", Opp2); ("ULM", Opp1);
   ("Florida", Opp2); ("South Florida", Opp1); ("USF", Opp1);
   ("LSU", Opp2); ("Louisiana Tech", Opp1); ("LA Tech", Opp1);
   ("Missouri", Opp2); ("Kansas", Opp1);
   ("Iowa State", Opp1); ("Iowa", Opp2);
   ("Houston", Opp2); ("Rice", Opp1);
   ("Navy", Opp2); ("UAB", Opp1);
   ("Clemson", Opp2); ("Troy", Opp1)].

(** One of the tests passes. *)
Definition any_test (opp1 opp2 : string) : bool :=
  existsb (fun t : string * side =>
             contains (match t.2 with Opp1 => opp1 | Opp2 => opp2 end) t.1) tests.

(** The opponent printed for a domain when no game lists null. *)
Definition opponent_name (d : list GameResult) (school : string) : string :=
  match game d school with
  | Some (Some opponent) => opponent
  | Some None | None => "Not found"
  end.

Definition verdict_of (d : list GameResult) (pair : string * string)
    : VerifyMatchingGames.verdict :=
  {| VerifyMatchingGames.v_school1 := pair.1;
     VerifyMatchingGames.v_opp1 := Some (opponent_name d pair.1);
     VerifyMatchingGames.v_school2 := pair.2;
     VerifyMatchingGames.v_opp2 := Some (opponent_name d pair.2);
     VerifyMatchingGames.v_each_other :=
       any_test (opponent_name d pair.1) (opponent_name d pair.2) |}.

(** *** First records *)

(** The record an inner loop with [break] stops at: the first successful
    record of the domain. *)
Definition first_successful (school : string) (d : list GameResult) : option GameResult :=
  head (filter (fun r => domain r = school ∧ success r = true) d).

(** A record the first block can show: [gameInfo] is a mapping with the key
    [opponent], and [officials] is not null. *)
Definition well_formed (r : GameResult) : Prop :=
  (∃ info opponent, gameInfo r = Value info ∧ lookup_key info "opponent" = Some opponent)
  ∧ officials r ≠ Null.

Definition shown_of (school : string) (r : GameResult) : DeepCheck.shown :=
  {| DeepCheck.s_school := school;
     DeepCheck.s_opponent := listed_opponent r;
     DeepCheck.s_lines := omap Spec.named (Spec.officials_or_empty r) |}.

Definition shown_first (d : list GameResult) : list DeepCheck.shown :=
  DeepCheck.schools_to_check ≫= fun school =>
    option_list (shown_of school <$> first_successful school d).

(** A successful record of [rolltide.com] that can be shown, and a later one
    that cannot. *)
Definition two_rolltide_records : list GameResult :=
  [ {| domain := "rolltide.com"; success := true; school := Absent;
       gameInfo := Value [("opponent", Some "ULM")];
       officials := Value [("referee", Some "Jane Roe"); ("umpire", Some "")] |};
    {| domain := "rolltide.com"; success := true; school := Absent;
       gameInfo := Null; officials := Null |} ].

(** The name under a key, when it is a non-empty string. *)
Definition name_at (key : string) (r : GameResult) : option string :=
  match lookup_key (Spec.officials_or_empty r) key with
  | Some (Some name) => if decide (name = "") then None else Some name
  | Some None | None => None
  end.

Definition sampled_of (school : string) (r : GameResult) : VerifyMatchingGames.sampled :=
  {| VerifyMatchingGames.m_school := school;
     VerifyMatchingGames.m_referee := name_at "referee" r;
     VerifyMatchingGames.m_umpire := name_at "umpire" r |}.

Definition sampled_first (d : list GameResult) : list VerifyMatchingGames.sampled :=
  VerifyMatchingGames.major_schools ≫= fun school =>
    match first_successful school d with
    | Some r => if decide (Spec.entries_of r = []) then [] else [sampled_of school r]
    | None => []
    end.

(** *** Short simple names *)

(** A capital letter A-Z followed by one or more letters a-z. *)
Definition capitalised (w : string) : Prop :=
  ∃ c ls, w = String c ls ∧ isupper_az c = true ∧ ls ≠ ""
          ∧ Spec.all_chars islower_az ls = true.

(** Two capitalised words of at most four and five characters with one space
    between them, and at most a line feed after them. *)
Definition short_simple (name : string) : Prop :=
  ∃ first second tail,
    name = first +:+ " " +:+ second +:+ tail
    ∧ capitalised first ∧ capitalised second
    ∧ String.length first < 5 ∧ String.length second < 6
    ∧ (tail = "" ∨ tail = String "010"%char "").

End Facts.

(** Splits [r ∈ [a; b; ...]] into one goal per record. *)
Ltac each_record H :=
  repeat (apply elem_of_cons in H as [->|H]); [..|by apply elem_of_nil in H].

(* ===================================================================== *)
(** * Properties *)

(** ** Strings *)

Section Strings.

Lemma app_cons (c : ascii) (s t : string) : String c s +:+ t = String c (s +:+ t).
Proof. reflexivity. Qed.

Lemma app_empty_l (t : string) : "" +:+ t = t.
Proof. reflexivity. Qed.

Lemma app_empty_r (s : string) : s +:+ "" = s.
Proof. induction s as [|c s IH]; [done|]. by rewrite app_cons, IH. Qed.

Lemma app_assoc' (s t u : string) : (s +:+ t) +:+ u = s +:+ t +:+ u.
Proof. induction s as [|c s IH]; [done|]. by rewrite !app_cons, IH. Qed.

Lemma split_from_blank (a s : string) :
  Spec.blank a → split_from None (a +:+ s) = split_from None s.
Proof.
  unfold Spec.blank. induction a as [|c a IH]; [done|].
  simpl. intros [Hc Ha]%andb_true_iff. rewrite Hc. auto.
Qed.

Lemma split_blank (a : string) : Spec.blank a → split a = [].
Proof. intros Ha. unfold split. rewrite <- (app_empty_r a). by rewrite split_from_blank. Qed.

Lemma split_from_part (word : option string) (u s : string) :
  Spec.part u →
  split_from word (u +:+ s) = split_from (Some (default "" word +:+ u)) s.
Proof.
  intros [Hne Hu]. revert word Hne Hu. induction u as [|c u IH]; intros word Hne Hu; [done|].
  simpl in Hu. apply andb_true_iff in Hu as [Hc Hu]. apply negb_true_iff in Hc.
  rewrite app_cons. simpl. rewrite Hc.
  destruct u as [|c' u]; [done|].
  rewrite IH by done. simpl. by rewrite app_assoc'.
Qed.

Lemma split_from_some (w s : string) :
  ∃ u rest, Spec.all_chars (fun c => negb (isspace c)) u = true ∧ Spec.part_ends rest
            ∧ s = u +:+ rest
            ∧ split_from (Some w) s = (w +:+ u) :: split_from None rest.
Proof.
  revert w. induction s as [|c s IH]; intros w.
  - exists "", "". simpl. by rewrite !app_empty_r.
  - destruct (isspace c) eqn:Hc.
    + exists "", (String c s). simpl. rewrite Hc, app_empty_r. done.
    + destruct (IH (w +:+ String c "")) as (u & rest & Hu & Hrest & -> & Hsplit).
      exists (String c u), rest. simpl. rewrite Hc. simpl.
      rewrite Hsplit, app_assoc'. done.
Qed.

Lemma split_from_none (s : string) :
  (Spec.blank s ∧ split_from None s = [])
  ∨ ∃ a u rest, Spec.blank a ∧ Spec.part u ∧ Spec.part_ends rest
                ∧ s = a +:+ u +:+ rest
                ∧ split_from None s = u :: split_from None rest.
Proof.
  induction s as [|c s IH]; [by left|].
  destruct (isspace c) eqn:Hc.
  - destruct IH as [[Hs Hsplit]|(a & u & rest & Ha & Hu & Hrest & -> & Hsplit)].
    + left. unfold Spec.blank. simpl. by rewrite Hc.
    + right. exists (String c a), u, rest. unfold Spec.blank in *. simpl. rewrite Hc. done.
  - right. destruct (split_from_some (String c "") s) as (u & rest & Hu & Hrest & -> & Hsplit).
    exists "", (String c u), rest. simpl. rewrite Hc. simpl.
    split; [done|]. split; [split; [done|simpl; by rewrite Hc]|].
    split; [done|]. split; [done|]. exact Hsplit.
Qed.


Lemma repetitive_iff (name : string) :
  CheckOfficials.is_repetitive name = true ↔ Spec.two_identical_parts name.
Proof.
  unfold CheckOfficials.is_repetitive, Spec.two_identical_parts, split. split.
  - intros [Hlen Heq]%andb_true_iff.
    apply Nat.eqb_eq in Hlen. apply bool_decide_eq_true in Heq.
    destruct (split_from_none name)
      as [[_ Hnil]|(a & p & rest & Ha & Hp & Hrest & -> & Hsplit)];
      [by rewrite Hnil in Hlen|].
    rewrite Hsplit in Hlen, Heq.
    destruct (split_from_none rest)
      as [[_ Hnil]|(b & q & rest' & Hb & Hq & Hrest' & -> & Hsplit')];
      [by rewrite Hnil in Hlen|].
    rewrite Hsplit' in Hlen, Heq. simpl in Heq. injection Heq as <-.
    destruct (split_from_none rest')
      as [[Hc _]|(? & ? & ? & _ & _ & _ & _ & Hsplit'')];
      [|by rewrite Hsplit'' in Hlen].
    exists p, a, b, rest'. repeat split; try done; try apply Hp.
    intros ->. destruct Hp as [Hne Hp]. destruct p as [|c p]; [done|].
    simpl in Hrest, Hp. rewrite Hrest in Hp. done.
  - intros (p & a & b & c & Hp & Ha & Hb & Hne & Hc & ->).
    rewrite split_from_blank, split_from_part by done. simpl.
    destruct b as [|sp b]; [congruence|].
    unfold Spec.blank in Hb. simpl in Hb. apply andb_true_iff in Hb as [Hsp Hb].
    simpl. rewrite Hsp.
    rewrite split_from_blank, split_from_part by done. simpl.
    rewrite !app_empty_l.
    destruct c as [|sp' c]; [simpl; by rewrite bool_decide_eq_true_2|].
    unfold Spec.blank in Hc. simpl in Hc. apply andb_true_iff in Hc as [Hsp' Hc].
    simpl. rewrite Hsp'. fold (split c). rewrite split_blank by done.
    simpl. by rewrite bool_decide_eq_true_2.
Qed.

Lemma code_line_feed (c : ascii) : (code c =? 10) = true ↔ c = ascii_of_nat 10.
Proof.
  unfold code. rewrite Nat.eqb_eq. split.
  - intros H. by rewrite <- (ascii_nat_embedding c), H.
  - by intros ->.
Qed.

Lemma at_dollar_iff (s : string) :
  at_dollar s = true ↔ s = "" ∨ s = String "010"%char "".
Proof.
  destruct s as [|c [|c' s]]; simpl.
  - split; auto.
  - rewrite code_line_feed. split; [by intros ->; right|]. by intros [?|[= ->]].
  - split; [done|]. by intros [?|?].
Qed.

Lemma match_digits_dollar_iff (s : string) :
  match_digits_dollar s = true
  ↔ ∃ ds, Spec.digits ds ∧ (s = ds ∨ s = ds +:+ String "010"%char "").
Proof.
  unfold Spec.digits. split.
  - induction s as [|c s IH]; simpl; [done|].
    intros [Hc [Hend|Hmore]%orb_true_iff]%andb_true_iff.
    + exists (String c ""). simpl. rewrite Hc. split; [done|].
      apply at_dollar_iff in Hend as [-> | ->]; auto.
    + destruct (IH Hmore) as (ds & [_ Hds] & Hs).
      exists (String c ds). simpl. rewrite Hc, Hds. split; [done|].
      destruct Hs as [-> | ->]; auto.
  - intros (ds & [Hne Hds] & Hs). revert s Hs.
    induction ds as [|c ds IH]; intros s Hs; [done|].
    simpl in Hds. apply andb_true_iff in Hds as [Hc Hds].
    destruct ds as [|c' ds].
    + destruct Hs as [-> | ->]; simpl; rewrite Hc; done.
    + assert (match_digits_dollar (String c' ds) = true
              ∧ match_digits_dollar (String c' ds +:+ String "010"%char "") = true)
        as [H1 H2] by (split; apply IH; auto).
      destruct Hs as [-> | ->]; rewrite ?app_cons; simpl; rewrite Hc; simpl.
      * simpl in H1. rewrite H1. apply orb_true_r.
      * rewrite !app_cons in H2. simpl in H2. rewrite H2. apply orb_true_r.
Qed.

Lemma search_digits_dollar_iff (s : string) :
  search_digits_dollar s = true
  ↔ ∃ front back, s = front +:+ back ∧ match_digits_dollar back = true.
Proof.
  split.
  - induction s as [|c s IH]; simpl.
    + done.
    + intros [Hhere|Hlater]%orb_true_iff.
      * by exists "", (String c s).
      * destruct (IH Hlater) as (front & back & -> & Hback).
        by exists (String c front), back.
  - intros (front & back & -> & Hback).
    induction front as [|c front IH].
    + destruct back; simpl in *; [done|]. by rewrite Hback.
    + rewrite app_cons. simpl. rewrite IH. apply orb_true_r.
Qed.

Lemma numbered_iff (name : string) :
  CheckOfficials.is_numbered name = true ↔ Spec.ends_in_digits_or_digits_line_feed name.
Proof.
  unfold CheckOfficials.is_numbered, Spec.ends_in_digits_or_digits_line_feed.
  rewrite search_digits_dollar_iff. split.
  - intros (front & back & -> & (ds & Hds & Hback)%match_digits_dollar_iff).
    exists front, ds. split; [done|]. destruct Hback as [-> | ->]; auto.
  - intros (front & ds & Hds & [-> | ->]).
    + exists front, ds. split; [done|]. apply match_digits_dollar_iff. eauto.
    + exists front, (ds +:+ String "010"%char ""). split; [done|].
      apply match_digits_dollar_iff. eauto.
Qed.

Lemma last_is_digit_app (front ds : string) :
  ds ≠ "" → Spec.last_is_digit (front +:+ ds) = Spec.last_is_digit ds.
Proof.
  intros Hne. induction front as [|c front IH]; [done|].
  rewrite app_cons. simpl. rewrite IH.
  destruct (front +:+ ds) eqn:Heq; [|done].
  destruct front; [|done]. by destruct ds.
Qed.

Lemma ends_in_digits_iff (name : string) :
  Spec.ends_in_digits name ↔ Spec.last_is_digit name = true.
Proof.
  unfold Spec.ends_in_digits, Spec.digits. split.
  - intros (front & ds & [Hne Hds] & ->). rewrite last_is_digit_app by done.
    clear front. induction ds as [|c ds IH]; [done|].
    simpl in Hds. apply andb_true_iff in Hds as [Hc Hds].
    destruct ds as [|c' ds]; [done|]. by apply IH.
  - induction name as [|c name IH]; [done|].
    destruct name as [|c' name].
    + simpl. intros Hc. exists "", (String c ""). simpl. by rewrite Hc.
    + intros H. destruct (IH H) as (front & ds & Hds & Heq).
      exists (String c front), ds. rewrite app_cons, <- Heq. done.
Qed.

Lemma startswith_iff (s p : string) :
  startswith s p = true ↔ ∃ back, s = p +:+ back.
Proof.
  revert s. induction p as [|a p IH]; intros s; simpl.
  - split; [by exists s|done].
  - destruct s as [|b s].
    + split; [done|]. by intros (back & ?).
    + rewrite andb_true_iff, bool_decide_eq_true, IH. split.
      * intros (-> & back & ->). by exists back.
      * intros (back & [= -> ->]). eauto.
Qed.

Lemma contains_iff (s sub : string) :
  contains s sub = true ↔ ∃ front back, s = front +:+ sub +:+ back.
Proof.
  split.
  - induction s as [|c s IH]; simpl.
    + rewrite orb_false_r. intros (back & ->)%startswith_iff. by exists "", back.
    + intros [(back & Heq)%startswith_iff|Hlater]%orb_true_iff.
      * by exists "", back.
      * destruct (IH Hlater) as (front & back & ->). by exists (String c front), back.
  - intros (front & back & ->). induction front as [|c front IH].
    + assert (startswith (sub +:+ back) sub = true) as H
        by (apply startswith_iff; eauto).
      destruct (sub +:+ back); simpl in *; by rewrite H.
    + rewrite app_cons. simpl. rewrite IH. apply orb_true_r.
Qed.

(** *** Letter case *)

(** Every code point of the model is below 256. *)
Lemma elem_of_code_points (c : ascii) : c ∈ ascii_of_nat <$> seq 0 256.
Proof.
  apply list_elem_of_fmap. exists (nat_of_ascii c).
  split; [by rewrite ascii_nat_embedding|].
  apply elem_of_seq. pose proof (nat_ascii_bounded c). lia.
Qed.

(** [str.lower] sends two code points to one exactly when they are the same
    letter in either case: checked on each of the 256 x 256 pairs. *)
Lemma same_letter_lower (a b : ascii) :
  Spec.same_letter a b = bool_decide (lower_char a = lower_char b).
Proof.
  assert (forallb (fun a =>
            forallb (fun b =>
                       Bool.eqb (Spec.same_letter a b)
                         (bool_decide (lower_char a = lower_char b)))
              (ascii_of_nat <$> seq 0 256))
            (ascii_of_nat <$> seq 0 256) = true) as Hall by (vm_compute; reflexivity).
  rewrite forallb_forall in Hall.
  specialize (Hall a (proj1 (list_elem_of_In _ _) (elem_of_code_points a))).
  rewrite forallb_forall in Hall.
  specialize (Hall b (proj1 (list_elem_of_In _ _) (elem_of_code_points b))).
  by apply Bool.eqb_prop in Hall.
Qed.

Lemma same_ignoring_case_lower (a b : string) :
  Spec.same_ignoring_case a b = true ↔ lower a = lower b.
Proof.
  revert b. induction a as [|x a IH]; intros [|y b]; simpl; [done|done|done|].
  rewrite andb_true_iff, same_letter_lower, bool_decide_eq_true, IH. split.
  - by intros [-> ->].
  - by intros [= -> ->].
Qed.

Lemma starts_ignoring_case_lower (name keyword : string) :
  Spec.starts_ignoring_case name keyword = startswith (lower name) (lower keyword).
Proof.
  revert name. induction keyword as [|k keyword IH]; intros [|c name]; simpl; [done..|].
  rewrite same_letter_lower, IH. f_equal. by apply bool_decide_ext.
Qed.

Lemma occurs_ignoring_case_lower (keyword name : string) :
  Spec.occurs_ignoring_case keyword name = contains (lower name) (lower keyword).
Proof.
  induction name as [|c name IH]; simpl.
  - by rewrite (starts_ignoring_case_lower "").
  - by rewrite (starts_ignoring_case_lower (String c name)), IH.
Qed.

Lemma lower_app (s t : string) : lower (s +:+ t) = lower s +:+ lower t.
Proof. induction s as [|c s IH]; [done|]. rewrite app_cons. simpl. by rewrite IH. Qed.

Lemma lower_app_inv (s x y : string) :
  lower s = x +:+ y → ∃ s1 s2, s = s1 +:+ s2 ∧ lower s1 = x ∧ lower s2 = y.
Proof.
  revert s. induction x as [|c x IH]; intros s Hs.
  - by exists "", s.
  - destruct s as [|c' s]; [done|]. rewrite app_cons in Hs. simpl in Hs.
    injection Hs as Hc Hs. destruct (IH s Hs) as (s1 & s2 & -> & H1 & H2).
    exists (String c' s1), s2. simpl. by rewrite Hc, H1.
Qed.

(** The search finds the keyword exactly when some part of the name is the
    keyword but for the case of its letters. *)
Lemma occurs_ignoring_case_iff (keyword name : string) :
  Spec.occurs_ignoring_case keyword name = true
  ↔ Spec.occurs_somewhere_ignoring_case keyword name.
Proof.
  rewrite occurs_ignoring_case_lower, contains_iff.
  unfold Spec.occurs_somewhere_ignoring_case. split.
  - intros (front & back & Hname).
    apply lower_app_inv in Hname as (f & rest & -> & Hf & Hrest).
    apply lower_app_inv in Hrest as (m & b & -> & Hm & Hb).
    exists f, m, b. split; [done|]. by apply same_ignoring_case_lower.
  - intros (f & m & b & -> & Hm%same_ignoring_case_lower).
    exists (lower f), (lower b). by rewrite !lower_app, Hm.
Qed.

Lemma placeholder_iff (name : string) :
  CheckOfficials.is_placeholder name = true ↔ Spec.placeholder name.
Proof.
  unfold CheckOfficials.is_placeholder, Spec.placeholder.
  rewrite bool_decide_eq_true. split.
  - intros H. unfold CheckOfficials.common_placeholder_names in H.
    repeat (apply elem_of_cons in H as [Heq|H]); [..|by apply elem_of_nil in H];
      match type of Heq with
      | _ = ?p =>
          exists p; split;
          [by apply (bool_decide_unpack _)
          |apply same_ignoring_case_lower; by rewrite Heq]
      end.
  - intros (p & Hp & Hsame%same_ignoring_case_lower). unfold Spec.placeholders in Hp.
    repeat (apply elem_of_cons in Hp as [->|Hp]); [..|by apply elem_of_nil in Hp];
      rewrite Hsame; by apply (bool_decide_unpack _).
Qed.

End Strings.

(** ** The error monad and loops *)

Lemma for_each_app {A S} (xs ys : list A) (body : S → A → py S) (s : S) :
  for_each (xs ++ ys) body s = for_each xs body s ≫= for_each ys body.
Proof.
  revert s. induction xs as [|x xs IH]; intros s; simpl; [done|].
  destruct (body s x) as [e|s']; simpl; [done|]. apply IH.
Qed.

(** A left fold that appends what each element yields. *)
Lemma foldl_append {A B} (g : A → list B) (xs : list A) (acc : list B) :
  foldl (fun acc x => acc ++ g x) acc xs = acc ++ xs ≫= g.
Proof.
  revert acc. induction xs as [|x xs IH]; intros acc; simpl.
  - by rewrite app_nil_r.
  - rewrite IH. by rewrite <- app_assoc.
Qed.

Lemma foldl_filter_skip {A S} (f : S → A → S) (keep : A → bool) (xs : list A) (s : S) :
  (∀ s x, keep x = false → f s x = s) →
  foldl f s (List.filter keep xs) = foldl f s xs.
Proof.
  intros Hskip. revert s. induction xs as [|x xs IH]; intros s; simpl; [done|].
  destruct (keep x) eqn:Hx; simpl; [apply IH|].
  rewrite Hskip by done. apply IH.
Qed.

Lemma for_each_filter_skip {A S} (body : S → A → py S) (keep : A → bool)
    (xs : list A) (s : S) :
  (∀ s x, keep x = false → body s x = Return s) →
  for_each (List.filter keep xs) body s = for_each xs body s.
Proof.
  intros Hskip. revert s. induction xs as [|x xs IH]; intros s; simpl; [done|].
  destruct (keep x) eqn:Hx; simpl.
  - destruct (body s x); simpl; [done|apply IH].
  - rewrite Hskip by done. simpl. apply IH.
Qed.

(** ** Flattening: the nested loops over records and their officials *)

(** A loop body that skips falsy names and otherwise does [step] on the
    entry folds over a mapping as [step] folds over its named items. *)
Lemma foldl_items {S} (body : S → string * option string → S)
    (step : S → string * string → S) (m : dict (option string)) (st : S) :
  (∀ st item, Spec.named item = None → body st item = st) →
  (∀ st item pn, Spec.named item = Some pn → body st item = step st pn) →
  foldl body st m = foldl step st (omap Spec.named m).
Proof.
  intros Hskip Hstep. revert st. induction m as [|item m IH]; intros st; simpl; [done|].
  destruct (Spec.named item) as [pn|] eqn:Hitem.
  - simpl. erewrite Hstep by done. apply IH.
  - rewrite Hskip by done. apply IH.
Qed.

(** The nested loops of the scripts fold over the flattened entry list. *)
Lemma foldl_entries {S} (body : GameResult → S → string * option string → S)
    (step : S → string * string * string → S) (d : list GameResult) (st : S) :
  (∀ r st item, Spec.named item = None → body r st item = st) →
  (∀ r st item pn, Spec.named item = Some pn →
     body r st item = step st (domain r, pn.1, pn.2)) →
  foldl (DeepCheck.over_officials body) st d = foldl step st (Spec.entries d).
Proof.
  intros Hskip Hstep. unfold Spec.entries. revert st.
  induction d as [|r d IH]; intros st; simpl; [done|].
  rewrite foldl_app, <- IH. f_equal.
  unfold DeepCheck.over_officials, Spec.entries_of.
  destruct (success r); simpl; [|done].
  destruct (officials r) as [| |m]; simpl; [done|done|].
  destruct m as [|item m]; [done|].
  change (truthy (Some (item :: m))) with true. cbv iota.
  rewrite foldl_fmap.
  apply (foldl_items (body r) (fun st pn => step st (domain r, pn.1, pn.2))); auto.
Qed.

(** The deep check builds the flattened entry list itself, as [all_names]. *)
Lemma all_names_entries (d : list GameResult) : DeepCheck.all_names d = Spec.entries d.
Proof.
  unfold DeepCheck.all_names.
  rewrite (foldl_entries DeepCheck.add_name (fun names e => names ++ [e])).
  - rewrite (foldl_append (fun e => [e])). simpl.
    induction (Spec.entries d) as [|e es IH]; csimpl; [done|]. by rewrite IH.
  - intros r st [position [[|c name]|]]; unfold Spec.named; simpl; done.
  - intros r st [position [[|c name]|]] pn; unfold Spec.named; simpl; try done.
    by intros [= <-].
Qed.

(** ** analyze_officials.py: the "no officials extracted" check *)

Section NoOfficials.
Import AnalyzeOfficials.

Lemma non_null_count_zero (m : dict (option string)) :
  (non_null_count m =? 0) = Spec.all_null m.
Proof.
  unfold non_null_count, Spec.all_null, values.
  induction m as [|[k [v|]] m IH]; simpl; [done|done|exact IH].
Qed.

Lemma opponent_of_returns (r : GameResult) :
  gameInfo r ≠ Null → opponent_of r = Return (Spec.opponent_or_unknown r).
Proof.
  unfold opponent_of, Spec.opponent_or_unknown, dict_get.
  destruct (gameInfo r) as [| |info]; simpl; [done|done|done].
Qed.

Lemma get_or_school (r : GameResult) :
  get_or (school r) (domain r) = Spec.school_or_domain r.
Proof. unfold Spec.school_or_domain. by destruct (school r). Qed.

(** One pass of the loop body. *)
Lemma visit_returns (acc : list entry) (r : GameResult) :
  (Spec.lacks_officials r = true → gameInfo r ≠ Null) →
  visit acc r =
    Return (acc ++ if Spec.lacks_officials r
                   then [Spec.reported r (Spec.officials_or_empty r)] else []).
Proof.
  unfold visit, Spec.lacks_officials, Spec.officials_or_empty.
  destruct (success r); simpl; [|by rewrite app_nil_r].
  destruct (officials r) as [| |m]; simpl.
  - intros H. rewrite opponent_of_returns by auto. simpl.
    by rewrite get_or_school.
  - by rewrite app_nil_r.
  - rewrite non_null_count_zero. destruct (Spec.all_null m); [|by rewrite app_nil_r].
    intros H. rewrite opponent_of_returns by auto. simpl.
    by rewrite get_or_school.
Qed.

Lemma for_each_visit (d : list GameResult) (acc : list entry) :
  (∀ r, r ∈ d → Spec.lacks_officials r = true → gameInfo r ≠ Null) →
  for_each d visit acc = Return (acc ++ Spec.expected_no_officials d).
Proof.
  unfold Spec.expected_no_officials.
  revert acc. induction d as [|r d IH]; intros acc Hd; simpl.
  - by rewrite app_nil_r.
  - rewrite visit_returns by (apply Hd; left). simpl.
    rewrite IH by (intros r' Hr'; apply Hd; by right).
    destruct (Spec.lacks_officials r); simpl.
    + by rewrite <- app_assoc.
    + by rewrite app_nil_r.
Qed.

(** A reported record whose [gameInfo] holds null stops the loop. *)
Lemma visit_raises (acc : list entry) (r : GameResult) :
  Spec.lacks_officials r = true → gameInfo r = Null →
  visit acc r = Raise AttributeError.
Proof.
  unfold visit, Spec.lacks_officials, opponent_of.
  intros [Hs Ho]%andb_true_iff Hg. rewrite Hs, Hg.
  destruct (officials r) as [| |m]; simpl; [done|done|].
  by rewrite non_null_count_zero, Ho.
Qed.

(** The check raises on every dataset that holds such a record. *)
Lemma no_officials_raises (d : list GameResult) :
  (∃ r, r ∈ d ∧ Spec.lacks_officials r = true ∧ gameInfo r = Null) →
  no_officials d = Raise AttributeError.
Proof.
  unfold no_officials. generalize (@nil entry).
  induction d as [|r d IH]; intros acc (r' & Hin & Hlacks & Hnull).
  - by apply elem_of_nil in Hin.
  - simpl. destruct (Spec.lacks_officials r) eqn:Hr.
    + destruct (gameInfo r) as [| |info] eqn:Hg.
      * rewrite visit_returns by (by rewrite Hg). simpl.
        apply IH. apply elem_of_cons in Hin as [->|Hin]; [congruence|eauto].
      * by rewrite visit_raises.
      * rewrite visit_returns by (by rewrite Hg). simpl.
        apply IH. apply elem_of_cons in Hin as [->|Hin]; [congruence|eauto].
    + rewrite visit_returns by (by rewrite Hr). simpl.
      apply IH. apply elem_of_cons in Hin as [->|Hin]; [congruence|eauto].
Qed.

End NoOfficials.

(** C1, as stated, fails: the claim defaults a null [officials] field to the
    empty mapping and so reports the record, the script skips it (its
    [isinstance(officials, dict)] guard is false for [None]). *)
Lemma no_officials_skips_null_officials :
  AnalyzeOfficials.no_officials [Sample.null_officials] = Return []
  ∧ Spec.claimed_no_officials [Sample.null_officials]
    = [ {| AnalyzeOfficials.e_domain := "a.com";
           AnalyzeOfficials.e_school := Some "a.com";
           AnalyzeOfficials.e_opponent := Some "Unknown";
           AnalyzeOfficials.e_officials_data := [] |} ]
  ∧ AnalyzeOfficials.no_officials [Sample.null_officials]
    ≠ Return (Spec.claimed_no_officials [Sample.null_officials]).
Proof. split; [reflexivity|]. split; [reflexivity|]. discriminate. Qed.

(** C1 (amended): on every dataset in which no reported record holds a null
    [gameInfo], the "no officials extracted" check returns exactly the
    successful records whose [officials] key is absent or holds a mapping
    that is empty or has every value null -- a record whose [officials] key
    holds null is not reported -- in input order, each with its domain, its
    school (the domain when the key is absent) and its opponent ("Unknown"
    when [gameInfo] or its [opponent] key is absent); every entry of the
    output comes from a record with [success = true]. *)
Theorem no_officials_exact (d : list GameResult) :
  (∀ r, r ∈ d → Spec.lacks_officials r = true → gameInfo r ≠ Null) →
  AnalyzeOfficials.no_officials d = Return (Spec.expected_no_officials d)
  ∧ (∀ e, e ∈ Spec.expected_no_officials d →
       ∃ r, r ∈ d ∧ success r = true
            ∧ (officials r = Absent
               ∨ ∃ m, officials r = Value m ∧ Forall (fun v => v = None) (values m))
            ∧ e = Spec.reported r (Spec.officials_or_empty r)).
Proof.
  intros Hd. split.
  - unfold AnalyzeOfficials.no_officials. by rewrite for_each_visit.
  - intros e He. unfold Spec.expected_no_officials in He.
    apply list_elem_of_fmap in He as (r & -> & Hr).
    apply list_elem_of_In, filter_In in Hr as [Hin Hq].
    exists r. split; [by apply list_elem_of_In|].
    unfold Spec.lacks_officials in Hq. apply andb_true_iff in Hq as [Hs Ho].
    split; [done|]. split; [|done].
    destruct (officials r) as [| |m]; [by left|done|right].
    exists m. split; [done|].
    unfold Spec.all_null in Ho. rewrite forallb_forall in Ho.
    apply Forall_forall. intros v Hv.
    apply list_elem_of_In in Hv. apply Ho in Hv. by apply bool_decide_eq_true in Hv.
Qed.

(** The sample dataset meets the hypothesis: its two records with a null
    [gameInfo] are not reported, one is unsuccessful and one has officials. *)
Lemma no_officials_exact_witness :
  AnalyzeOfficials.no_officials Sample.dataset
    = Return (Spec.expected_no_officials Sample.dataset)
  ∧ (∀ e, e ∈ Spec.expected_no_officials Sample.dataset →
       ∃ r, r ∈ Sample.dataset ∧ success r = true
            ∧ (officials r = Absent
               ∨ ∃ m, officials r = Value m ∧ Forall (fun v => v = None) (values m))
            ∧ e = Spec.reported r (Spec.officials_or_empty r)).
Proof.
  apply (no_officials_exact Sample.dataset).
  intros r Hr. each_record Hr; vm_compute; congruence.
Defined.

(** ** Null and absent fields that raise *)

(** C3 fails on the scripts.  [result.get('gameInfo', {})] substitutes its
    default for an absent key only: on a reported record whose [gameInfo]
    holds null the "no officials" check raises [AttributeError].  The first
    block of the deep check subscripts [result['gameInfo']] and calls
    [.items()] on [result.get('officials', {})]: an absent [gameInfo] raises
    [KeyError], a null one [TypeError], a null [officials] [AttributeError]. *)
Lemma null_fields_raise :
  AnalyzeOfficials.no_officials [Sample.null_gameInfo] = Raise AttributeError
  ∧ DeepCheck.check_schools [Sample.rolltide_bare] = Raise (KeyError "gameInfo")
  ∧ DeepCheck.check_schools
      [ {| domain := "rolltide.com"; success := true; school := Absent;
           gameInfo := Null; officials := Absent |} ] = Raise TypeError
  ∧ DeepCheck.check_schools [Sample.rolltide_null_officials] = Raise AttributeError.
Proof. repeat split; reflexivity. Qed.

(** ** Unsuccessful records *)

Section Unsuccessful.

Lemma first_match_successful (school : string) (d : list GameResult) :
  DeepCheck.first_match school (List.filter success d) = DeepCheck.first_match school d.
Proof.
  induction d as [|r d IH]; simpl; [done|].
  destruct (success r) eqn:Hr; simpl.
  - rewrite Hr, IH. done.
  - by rewrite andb_false_r.
Qed.

Lemma over_officials_unsuccessful {S} (body : GameResult → S → string * option string → S)
    (st : S) (r : GameResult) :
  success r = false → DeepCheck.over_officials body st r = st.
Proof. unfold DeepCheck.over_officials. by intros ->. Qed.

Lemma collect_successful (d : list GameResult) :
  CheckOfficials.collect (List.filter success d) = CheckOfficials.collect d.
Proof.
  apply foldl_filter_skip. intros st r Hr. unfold CheckOfficials.visit. by rewrite Hr.
Qed.

Lemma officials_by_school_successful (d : list GameResult) :
  DeepCheck.officials_by_school (List.filter success d) = DeepCheck.officials_by_school d.
Proof.
  apply foldl_filter_skip. intros st r Hr. unfold DeepCheck.visit_school. by rewrite Hr.
Qed.

Lemma school_games_successful (d : list GameResult) :
  VerifyMatchingGames.school_games (List.filter success d)
  = VerifyMatchingGames.school_games d.
Proof.
  apply foldl_filter_skip. intros st r Hr. unfold VerifyMatchingGames.visit. by rewrite Hr.
Qed.

End Unsuccessful.

(** C4: a record with [success = false] contributes nothing to any check.
    Each check gives on a dataset what it gives on the dataset without its
    unsuccessful records: the "no officials" list (or the exception raised),
    the suspicious-name flags and the flattened name list, the name
    statistics with the duplicate and single-word names, the schools shown
    by the deep check, the per-school crews and the identical-crew pairs,
    the position frequencies, the keyword scan, and the opponent lookup of
    the known pairs with its verdicts. *)
Theorem unsuccessful_records_contribute_nothing (d : list GameResult) :
  let d' := List.filter success d in
  AnalyzeOfficials.no_officials d' = AnalyzeOfficials.no_officials d
  ∧ CheckOfficials.suspicious_names (CheckOfficials.collect d')
    = CheckOfficials.suspicious_names (CheckOfficials.collect d)
  ∧ CheckOfficials.all_officials (CheckOfficials.collect d')
    = CheckOfficials.all_officials (CheckOfficials.collect d)
  ∧ CheckOfficials.name_statistics d' = CheckOfficials.name_statistics d
  ∧ CheckOfficials.duplicate_officials d' = CheckOfficials.duplicate_officials d
  ∧ CheckOfficials.single_names d' = CheckOfficials.single_names d
  ∧ DeepCheck.check_schools d' = DeepCheck.check_schools d
  ∧ DeepCheck.officials_by_school d' = DeepCheck.officials_by_school d
  ∧ DeepCheck.identical_crews d' = DeepCheck.identical_crews d
  ∧ DeepCheck.position_frequency d' = DeepCheck.position_frequency d
  ∧ DeepCheck.found_suspicious d' = DeepCheck.found_suspicious d
  ∧ VerifyMatchingGames.school_games d' = VerifyMatchingGames.school_games d
  ∧ VerifyMatchingGames.known_pairs d' = VerifyMatchingGames.known_pairs d.
Proof.
  intros d'. subst d'. repeat split.
  - apply for_each_filter_skip. intros st r Hr. unfold AnalyzeOfficials.visit. by rewrite Hr.
  - by rewrite collect_successful.
  - by rewrite collect_successful.
  - unfold CheckOfficials.name_statistics, CheckOfficials.name_counts.
    by rewrite collect_successful.
  - unfold CheckOfficials.duplicate_officials, CheckOfficials.name_counts.
    by rewrite collect_successful.
  - unfold CheckOfficials.single_names. by rewrite collect_successful.
  - unfold DeepCheck.check_schools. generalize (@nil DeepCheck.shown).
    induction DeepCheck.schools_to_check as [|school schools IH]; intros printed; [done|].
    simpl. rewrite first_match_successful.
    destruct (DeepCheck.first_match school d); simpl; [done|apply IH].
  - apply officials_by_school_successful.
  - unfold DeepCheck.identical_crews. by rewrite officials_by_school_successful.
  - unfold DeepCheck.position_frequency, DeepCheck.position_counts. f_equal.
    apply foldl_filter_skip. intros. by apply over_officials_unsuccessful.
  - apply foldl_filter_skip. intros. by apply over_officials_unsuccessful.
  - apply school_games_successful.
  - unfold VerifyMatchingGames.known_pairs. by rewrite school_games_successful.
Qed.

(** ** check_officials.py: flags and the flattened name list *)

Section Flags.
Import CheckOfficials.

Lemma visit_item_skip (r : GameResult) (st : collected) (item : string * option string) :
  Spec.named item = None → visit_item r st item = st.
Proof.
  destruct item as [position [[|c name]|]]; unfold Spec.named; simpl; try done.
Qed.

Lemma visit_item_named (r : GameResult) (st : collected) (item : string * option string)
    (pn : string * string) :
  Spec.named item = Some pn →
  visit_item r st item =
    {| all_officials := all_officials st ++ [pn.2];
       suspicious_names := suspicious_names st ++ flags_of (domain r) pn.1 pn.2 |}.
Proof.
  destruct item as [position [[|c name]|]]; unfold Spec.named; simpl; try done.
  by intros [= <-].
Qed.

(** The loop of the script, as one pass over the flattened entries. *)
Lemma collect_entries (d : list GameResult) :
  collect d =
    {| all_officials := snd <$> Spec.entries d;
       suspicious_names := Spec.entries d ≫= (fun e => flags_of e.1.1 e.1.2 e.2) |}.
Proof.
  unfold collect.
  change visit with (DeepCheck.over_officials visit_item).
  rewrite (foldl_entries visit_item
             (fun st e => {| all_officials := all_officials st ++ [e.2];
                             suspicious_names :=
                               suspicious_names st ++ flags_of e.1.1 e.1.2 e.2 |}));
    [|apply visit_item_skip|apply visit_item_named].
  generalize (Spec.entries d). intros es.
  assert (∀ st,
    foldl (fun st e => {| all_officials := all_officials st ++ [e.2];
                          suspicious_names :=
                            suspicious_names st ++ flags_of e.1.1 e.1.2 e.2 |}) st es
    = {| all_officials := all_officials st ++ (snd <$> es);
         suspicious_names :=
           suspicious_names st ++ es ≫= (fun e => flags_of e.1.1 e.1.2 e.2) |}) as H.
  { induction es as [|e es IH]; intros [names flags]; simpl.
    - by rewrite !app_nil_r.
    - rewrite IH. simpl. by rewrite <- !app_assoc. }
  by rewrite H.
Qed.

End Flags.

(** C2, as stated, fails.  The script's pattern [\d+$] also matches in front
    of a line feed that ends the name: ["Referee2\n"] is flagged "Contains
    numbers" although it is no placeholder, does not split into two identical
    parts and does not end in a decimal digit. *)
Lemma trailing_line_feed_is_flagged :
  CheckOfficials.suspicious_names (CheckOfficials.collect [Sample.trailing_line_feed])
    = [CheckOfficials.mk_flag "g.com" "referee" ("Referee2" +:+ Sample.line_feed)
         "Contains numbers"]
  ∧ ¬ Spec.placeholder ("Referee2" +:+ Sample.line_feed)
  ∧ ¬ Spec.two_identical_parts ("Referee2" +:+ Sample.line_feed)
  ∧ ¬ Spec.ends_in_digits ("Referee2" +:+ Sample.line_feed).
Proof.
  split; [reflexivity|]. split; [|split].
  - rewrite <- placeholder_iff. by vm_compute.
  - rewrite <- repetitive_iff. by vm_compute.
  - rewrite ends_in_digits_iff. by vm_compute.
Qed.

(** C2 (amended): the flags are those of the flattened entries, in order, and
    an entry gets one flag per predicate it satisfies -- "Common placeholder
    name" for case-insensitive membership in the fixed placeholder set (the
    name is a placeholder but for the case of its letters: "JOHN Doe" is
    one, "John  Doe" with two blanks is not),
    "Repetitive pattern" for a name that splits into exactly two identical
    whitespace-separated parts, "Contains numbers" for a name that ends in
    one or more decimal digits or in such digits followed by one line feed --
    so it is flagged if and only if it satisfies at least one of them, maybe
    more than once, never without a reason. *)
Theorem suspicious_names_flags (d : list GameResult) :
  CheckOfficials.suspicious_names (CheckOfficials.collect d)
    = Spec.entries d ≫= (fun e => CheckOfficials.flags_of e.1.1 e.1.2 e.2)
  ∧ (∀ school position name : string,
      let flags := CheckOfficials.flags_of school position name in
      let flag := CheckOfficials.mk_flag school position name in
      (flag "Common placeholder name" ∈ flags ↔ Spec.placeholder name)
      ∧ (flag "Repetitive pattern" ∈ flags ↔ Spec.two_identical_parts name)
      ∧ (flag "Contains numbers" ∈ flags
         ↔ Spec.ends_in_digits_or_digits_line_feed name)
      ∧ NoDup flags
      ∧ (∀ f, f ∈ flags →
           f = flag "Common placeholder name" ∨ f = flag "Repetitive pattern"
           ∨ f = flag "Contains numbers")
      ∧ (flags ≠ []
         ↔ Spec.placeholder name ∨ Spec.two_identical_parts name
           ∨ Spec.ends_in_digits_or_digits_line_feed name))
  ∧ CheckOfficials.flags_of "f.com" "referee" "JOHN Doe"
    = [CheckOfficials.mk_flag "f.com" "referee" "JOHN Doe" "Common placeholder name"]
  ∧ CheckOfficials.flags_of "f.com" "referee" "John  Doe" = [].
Proof.
  split; [by rewrite collect_entries|]. split; [|by vm_compute].
  intros school position name flags flag.
  rewrite <- placeholder_iff, <- repetitive_iff, <- numbered_iff.
  assert (Inj (=) (=) flag) as Hinj by (by intros r1 r2 [= ->]).
  set (reasons :=
    (if CheckOfficials.is_placeholder name then ["Common placeholder name"] else [])
    ++ (if CheckOfficials.is_repetitive name then ["Repetitive pattern"] else [])
    ++ (if CheckOfficials.is_numbered name then ["Contains numbers"] else [])).
  assert (flags = flag <$> reasons) as ->.
  { subst flags flag reasons. unfold CheckOfficials.flags_of.
    rewrite !fmap_app.
    by destruct (CheckOfficials.is_placeholder name),
                (CheckOfficials.is_repetitive name),
                (CheckOfficials.is_numbered name). }
  rewrite !(list_elem_of_fmap_inj flag), (NoDup_fmap flag).
  assert (flag <$> reasons ≠ [] ↔ reasons ≠ []) as -> by (by destruct reasons).
  assert (∀ f, f ∈ flag <$> reasons → ∃ r, f = flag r ∧ r ∈ reasons) as Hin
    by (intros f; apply list_elem_of_fmap).
  assert (Forall (fun r => r = "Common placeholder name" ∨ r = "Repetitive pattern"
                           ∨ r = "Contains numbers") reasons) as Hall.
  { subst reasons.
    destruct (CheckOfficials.is_placeholder name),
             (CheckOfficials.is_repetitive name),
             (CheckOfficials.is_numbered name); compute_done. }
  split; [|split; [|split; [|split; [|split]]]].
  5: { intros f (r & -> & Hr)%Hin. rewrite Forall_forall in Hall.
       destruct (Hall r Hr) as [->|[->| ->]]; auto. }
  all: subst reasons;
    destruct (CheckOfficials.is_placeholder name),
             (CheckOfficials.is_repetitive name),
             (CheckOfficials.is_numbered name); compute_done.
Qed.

(** ** Counter and most_common *)

Section Counting.

Lemma elem_of_first_seen (x : string) (xs : list string) :
  x ∈ Spec.first_seen xs ↔ x ∈ xs.
Proof.
  induction xs as [|y xs IH]; simpl; [done|].
  rewrite !elem_of_cons, list_elem_of_filter, IH.
  destruct (decide (x = y)); intuition.
Qed.

Lemma NoDup_first_seen (xs : list string) : NoDup (Spec.first_seen xs).
Proof.
  induction xs as [|y xs IH]; simpl; [constructor|].
  apply NoDup_cons. split.
  - rewrite list_elem_of_filter. by intros [? _].
  - by apply NoDup_filter.
Qed.

Lemma first_seen_snoc (xs : list string) (x : string) :
  Spec.first_seen (xs ++ [x])
  = Spec.first_seen xs ++ (if decide (x ∈ xs) then [] else [x]).
Proof.
  induction xs as [|y xs IH]; simpl; [done|].
  rewrite IH, filter_app. f_equal. f_equal.
  destruct (decide (x ∈ xs)) as [Hin|Hin].
  - rewrite decide_True by (by right). done.
  - destruct (decide (x = y)) as [->|Hne].
    + rewrite decide_True by left. rewrite filter_cons_False by (by intros ?). done.
    + rewrite decide_False by (rewrite elem_of_cons; intuition).
      by rewrite filter_cons_True.
Qed.

Lemma occurrences_snoc (y x : string) (xs : list string) :
  Spec.occurrences y (xs ++ [x])
  = Spec.occurrences y xs + (if decide (x = y) then 1 else 0).
Proof.
  unfold Spec.occurrences. rewrite filter_app, length_app. f_equal.
  destruct (decide (x = y)).
  - by rewrite filter_cons_True.
  - by rewrite filter_cons_False.
Qed.

Lemma occurrences_absent (x : string) (xs : list string) :
  x ∉ xs → Spec.occurrences x xs = 0.
Proof.
  unfold Spec.occurrences. induction xs as [|y xs IH]; [done|].
  rewrite not_elem_of_cons. intros [Hne Hin].
  rewrite filter_cons_False by done. auto.
Qed.

Lemma lookup_key_fmap (f : string → nat) (l : list string) (x : string) :
  lookup_key ((fun n => (n, f n)) <$> l) x = if decide (x ∈ l) then Some (f x) else None.
Proof.
  induction l as [|y l IH]; csimpl; [done|].
  destruct (decide (y = x)) as [->|Hne].
  - by rewrite decide_True by left.
  - rewrite IH. destruct (decide (x ∈ l)).
    + by rewrite decide_True by (by right).
    + by rewrite decide_False by (rewrite elem_of_cons; intuition).
Qed.

Lemma setitem_fmap (f : string → nat) (l : list string) (x : string) (v : nat) :
  NoDup l →
  setitem ((fun n => (n, f n)) <$> l) x v
  = ((fun n => (n, if decide (n = x) then v else f n)) <$> l)
    ++ (if decide (x ∈ l) then [] else [(x, v)]).
Proof.
  induction l as [|y l IH]; csimpl; [done|].
  intros [Hy Hl]%NoDup_cons.
  destruct (decide (y = x)) as [->|Hne].
  - rewrite decide_True by left. rewrite app_nil_r. f_equal.
    apply list_fmap_ext. intros i n Hn.
    rewrite decide_False; [done|]. intros ->. apply Hy. by eapply list_elem_of_lookup_2.
  - rewrite IH by done. csimpl. f_equal. f_equal.
    destruct (decide (x ∈ l)).
    + by rewrite decide_True by (by right).
    + by rewrite decide_False by (rewrite elem_of_cons; intuition).
Qed.

(** [Counter] lists every distinct element once, in first-seen order, with
    the number of its occurrences. *)
Lemma Counter_tally (xs : list string) : Counter xs = Spec.tally xs.
Proof.
  unfold Counter, Spec.tally. induction xs as [|x xs IH] using rev_ind; [done|].
  rewrite foldl_snoc, IH. unfold incr, dict_get.
  rewrite lookup_key_fmap, setitem_fmap by apply NoDup_first_seen.
  rewrite first_seen_snoc, fmap_app.
  assert (∀ b : bool, (if b then true else false) = b) as Hb by (by intros []).
  destruct (decide (x ∈ xs)) as [Hin|Hin].
  - rewrite !decide_True by (by apply elem_of_first_seen). simpl. f_equal.
    apply list_fmap_ext. intros i n Hn. rewrite occurrences_snoc.
    destruct (decide (n = x)) as [->|Hne].
    + by rewrite decide_True.
    + rewrite decide_False by done. by rewrite Nat.add_0_r.
  - rewrite !decide_False by (by rewrite elem_of_first_seen). simpl. f_equal.
    + apply list_fmap_ext. intros i n Hn. rewrite occurrences_snoc.
      assert (n ≠ x) as Hne.
      { intros ->. apply Hin, elem_of_first_seen. by eapply list_elem_of_lookup_2. }
      rewrite !decide_False by done. by rewrite Nat.add_0_r.
    + rewrite occurrences_snoc, occurrences_absent by done.
      by rewrite decide_True.
Qed.

Lemma insert_desc_perm (x : string * nat) (l : dict nat) : insert_desc x l ≡ₚ x :: l.
Proof.
  induction l as [|y l IH]; simpl; [done|].
  destruct (y.2 <=? x.2); [done|]. rewrite IH. apply perm_swap.
Qed.

Lemma sorted_desc_perm (l : dict nat) : sorted_desc l ≡ₚ l.
Proof.
  unfold sorted_desc. induction l as [|x l IH]; simpl; [done|].
  by rewrite insert_desc_perm, IH.
Qed.

Lemma insert_desc_sorted (tie : relation (string * nat)) (x : string * nat) (l : dict nat) :
  StronglySorted (Spec.by_count_then tie) l → Forall (tie x) l →
  StronglySorted (Spec.by_count_then tie) (insert_desc x l).
Proof.
  induction 1 as [|y l Hl IH Hy]; intros Hx; simpl; [by repeat constructor|].
  apply Forall_cons in Hx as [Hxy Hxl].
  destruct (y.2 <=? x.2) eqn:Hle.
  - apply Nat.leb_le in Hle. constructor; [by constructor|].
    constructor.
    + unfold Spec.by_count_then. destruct (decide (y.2 = x.2)); [right|left]; auto with lia.
    + rewrite Forall_forall in Hy, Hxl |- *. intros z Hz.
      specialize (Hy z Hz). specialize (Hxl z Hz).
      unfold Spec.by_count_then in *. destruct (decide (z.2 = x.2)); [right|left]; lia || auto.
  - apply Nat.leb_gt in Hle. constructor; [by apply IH|].
    rewrite insert_desc_perm. constructor; [|done].
    left. lia.
Qed.

(** The sort is stable: items of equal count keep the order they had. *)
Lemma sorted_desc_sorted (tie : relation (string * nat)) (l : dict nat) :
  StronglySorted tie l → StronglySorted (Spec.by_count_then tie) (sorted_desc l).
Proof.
  unfold sorted_desc. induction 1 as [|x l Hl IH Hx]; simpl; [constructor|].
  apply insert_desc_sorted; [done|].
  by rewrite (sorted_desc_perm l).
Qed.

Lemma first_index_lt_filter (x : string) (xs l : list string) :
  StronglySorted (fun a b => Spec.first_index a xs < Spec.first_index b xs) l →
  StronglySorted (fun a b => Spec.first_index a (x :: xs) < Spec.first_index b (x :: xs))
    (filter (fun y => y ≠ x) l).
Proof.
  induction 1 as [|a l Hl IH Ha]; [constructor|].
  destruct (decide (a = x)) as [->|Hne].
  - by rewrite filter_cons_False by (by intros ?).
  - rewrite filter_cons_True by done. constructor; [done|].
    apply Forall_forall. intros b [Hb Hin]%list_elem_of_filter.
    rewrite Forall_forall in Ha. specialize (Ha b Hin). simpl.
    rewrite !decide_False by done. lia.
Qed.

Lemma first_seen_sorted (xs : list string) :
  StronglySorted (fun a b => Spec.first_index a xs < Spec.first_index b xs)
    (Spec.first_seen xs).
Proof.
  induction xs as [|x xs IH]; simpl; [constructor|].
  constructor; [by apply first_index_lt_filter|].
  apply Forall_forall. intros b [Hb _]%list_elem_of_filter.
  rewrite decide_True by done. rewrite decide_False by done. lia.
Qed.

Lemma tally_sorted (xs : list string) :
  StronglySorted (fun a b => Spec.first_index a.1 xs < Spec.first_index b.1 xs)
    (Spec.tally xs).
Proof.
  unfold Spec.tally. generalize (first_seen_sorted xs).
  generalize (Spec.first_seen xs). intros l. induction 1 as [|a l Hl IH Ha]; [constructor|].
  rewrite fmap_cons. constructor; [done|].
  apply Forall_fmap. by eapply Forall_impl.
Qed.

Lemma size_names (xs : list string) :
  size (list_to_set xs : gset string) = length (Spec.first_seen xs).
Proof.
  rewrite <- (size_list_to_set (C := gset string) (Spec.first_seen xs))
    by apply NoDup_first_seen.
  f_equal. apply set_eq. intros x. by rewrite !elem_of_list_to_set, elem_of_first_seen.
Qed.

End Counting.

(** C8: the statistics of the suspicious-name check.  [total] is the number
    of flattened entries (the names that passed [if name:]), [unique] the
    number of distinct names under string equality, which tells letter case
    apart, and [top10] the first ten of the ranking that lists every
    distinct name once with its occurrence count, by descending count and,
    among equal counts, by where the name is first seen in the flattened
    list. *)
Theorem name_statistics_report (d : list GameResult) :
  let names := snd <$> Spec.entries d in
  let stats := CheckOfficials.name_statistics d in
  CheckOfficials.all_officials (CheckOfficials.collect d) = names
  ∧ CheckOfficials.total stats = length names
  ∧ CheckOfficials.unique stats = length (Spec.first_seen names)
  ∧ NoDup (Spec.first_seen names)
  ∧ (∀ n, n ∈ Spec.first_seen names ↔ n ∈ names)
  ∧ ∃ ranking,
      CheckOfficials.top10 stats = take 10 ranking
      ∧ ranking ≡ₚ Spec.tally names
      ∧ StronglySorted (Spec.ranks_before names) ranking.
Proof.
  intros names stats. subst stats.
  unfold CheckOfficials.name_statistics, CheckOfficials.name_counts.
  rewrite collect_entries. simpl. fold names.
  split; [done|]. split; [done|]. split; [apply size_names|].
  split; [apply NoDup_first_seen|]. split; [intros n; apply elem_of_first_seen|].
  exists (sorted_desc (Counter names)). split; [done|].
  rewrite Counter_tally. split; [apply sorted_desc_perm|].
  apply sorted_desc_sorted, tally_sorted.
Qed.

(** ** deep_check_officials.py: the keyword scan *)

Section KeywordScan.
Import DeepCheck.

Lemma foldl_keywords {A} (e : A) (hit : string → bool) (keywords : list string)
    (found : list A) :
  foldl (fun found keyword => if hit keyword then found ++ [e] else found) found keywords
  = found ++ replicate (length (List.filter hit keywords)) e.
Proof.
  revert found. induction keywords as [|k keywords IH]; intros found; simpl.
  - by rewrite app_nil_r.
  - rewrite IH. destruct (hit k); simpl; [|done]. by rewrite <- app_assoc.
Qed.

Lemma keywords_lower (keyword : string) :
  keyword ∈ Spec.keywords → lower keyword = keyword.
Proof.
  unfold Spec.keywords. intros H.
  repeat (apply elem_of_cons in H as [->|H]); [reflexivity..|by apply elem_of_nil in H].
Qed.

(** [keyword in name_lower], for a keyword of the list: the keyword occurs
    in the name in either case. *)
Lemma keyword_in_name_lower (name keyword : string) :
  keyword ∈ Spec.keywords →
  contains (lower name) keyword = Spec.occurs_ignoring_case keyword name.
Proof.
  intros Hk. by rewrite occurs_ignoring_case_lower, (keywords_lower keyword).
Qed.

Lemma found_suspicious_entries (d : list GameResult) :
  found_suspicious d
  = Spec.entries d ≫= (fun e => replicate (length (Spec.matched_keywords e.2)) e).
Proof.
  unfold found_suspicious.
  rewrite (foldl_entries scan_name
             (fun found e =>
                found ++ replicate (length (Spec.matched_keywords e.2)) e)).
  - by rewrite foldl_append.
  - intros r found [position [[|c name]|]]; unfold Spec.named; simpl; done.
  - intros r found [position name] pn. unfold Spec.named. cbn [fst snd].
    destruct name as [name|]; [|done].
    destruct (decide (name = "")) as [->|Hne]; [done|]. intros [= <-].
    unfold scan_name. replace (truthy (Some name)) with true by (by destruct name).
    rewrite foldl_keywords. unfold Spec.matched_keywords. do 3 f_equal.
    apply List.filter_ext_in. intros keyword Hk%list_elem_of_In.
    by apply keyword_in_name_lower.
Qed.

End KeywordScan.

(** C7: the keyword scan emits, for the flattened entries in order, each
    entry once per keyword of the fixed set that occurs in its name
    case-insensitively, that is when some part of the name is the keyword
    but for the case of its letters: an entry whose name matches [k]
    keywords stands [k] times in the output, one that matches none does not
    appear.  The empty name matches no keyword, so leaving empty names out of
    the flattened list loses nothing.  "Test Example" is listed twice, a name
    in capitals is found, and a keyword broken by a blank is not. *)
Theorem keyword_scan_entries (d : list GameResult) :
  DeepCheck.found_suspicious d
    = Spec.entries d ≫= (fun e => replicate (length (Spec.matched_keywords e.2)) e)
  ∧ DeepCheck.suspicious_keywords = Spec.keywords
  ∧ Spec.matched_keywords "" = []
  ∧ (∀ name,
        NoDup (Spec.matched_keywords name)
        ∧ ∀ keyword,
            keyword ∈ Spec.matched_keywords name
            ↔ keyword ∈ Spec.keywords ∧ Spec.occurs_somewhere_ignoring_case keyword name)
  ∧ DeepCheck.found_suspicious [Sample.odd_names]
    = [("f.com", "clock", "Test Example"); ("f.com", "clock", "Test Example")]
  ∧ Spec.matched_keywords "TEMPlate, dEmO" = ["demo"; "temp"]
  ∧ Spec.matched_keywords "Tes t" = [].
Proof.
  split; [apply found_suspicious_entries|]. split; [done|]. split; [by vm_compute|].
  split; [|by vm_compute].
  intros name. unfold Spec.matched_keywords. split.
  - apply NoDup_ListNoDup, List.NoDup_filter, NoDup_ListNoDup. compute_done.
  - intros keyword. rewrite list_elem_of_In, filter_In, <- list_elem_of_In.
    by rewrite occurs_ignoring_case_iff.
Qed.

(** ** deep_check_officials.py: identical crews *)

Section Dicts.
Context {V : Type}.
Implicit Types (m : dict V) (k : string) (v : V).

Lemma keys_setitem m k v :
  keys (setitem m k v) = keys m ++ (if decide (k ∈ keys m) then [] else [k]).
Proof.
  unfold keys. induction m as [|[k' v'] m IH]; csimpl; [done|].
  destruct (decide (k' = k)) as [->|Hne]; csimpl.
  - rewrite decide_True by left. by rewrite app_nil_r.
  - rewrite IH. f_equal. f_equal.
    destruct (decide (k ∈ m.*1)).
    + by rewrite decide_True by (by right).
    + by rewrite decide_False by (rewrite elem_of_cons; intuition).
Qed.

Lemma lookup_key_setitem m k v k' :
  lookup_key (setitem m k v) k' = if decide (k = k') then Some v else lookup_key m k'.
Proof.
  induction m as [|[k0 v0] m IH]; simpl.
  - destruct (decide (k = k')); done.
  - destruct (decide (k0 = k)) as [->|Hne]; simpl.
    + destruct (decide (k = k')); done.
    + rewrite IH. destruct (decide (k0 = k')) as [->|Hne']; [|done].
      by rewrite decide_False.
Qed.

Lemma NoDup_keys_setitem m k v : NoDup (keys m) → NoDup (keys (setitem m k v)).
Proof.
  intros Hm. rewrite keys_setitem. destruct (decide (k ∈ keys m)).
  - by rewrite app_nil_r.
  - apply NoDup_app. split; [done|]. split; [|apply NoDup_singleton].
    intros x Hx ->%list_elem_of_singleton. done.
Qed.

Lemma lookup_key_Some m k : k ∈ keys m ↔ is_Some (lookup_key m k).
Proof.
  unfold keys. induction m as [|[k' v'] m IH]; csimpl.
  - split; [by intros ?%elem_of_nil|by intros [? ?]].
  - rewrite elem_of_cons. destruct (decide (k' = k)) as [->|Hne].
    + split; eauto.
    + rewrite IH. intuition congruence.
Qed.

End Dicts.

Section Crews.
Import DeepCheck.

Lemma add_tokens (m : dict (option string)) :
  foldl add_token [] m
  = (fun pn : string * string => pn.1 +:+ ":" +:+ pn.2) <$> omap Spec.named m.
Proof.
  rewrite (foldl_items add_token (fun tokens pn => tokens ++ [pn.1 +:+ ":" +:+ pn.2])).
  - generalize (omap Spec.named m). intros l.
    rewrite (foldl_append (fun pn : string * string => [pn.1 +:+ ":" +:+ pn.2])).
    simpl. induction l as [|pn l IH]; csimpl; [done|]. by rewrite <- IH.
  - intros st [position [[|c name]|]]; unfold Spec.named; simpl; done.
  - intros st [position [[|c name]|]] pn; unfold Spec.named; simpl; try done.
    by intros [= <-].
Qed.

(** One pass of the loop: a record with a token sets its domain's crew. *)
Lemma visit_school_tokens (by_school : dict (gset string)) (r : GameResult) :
  visit_school by_school r
  = if decide (Spec.tokens_of r = [])
    then by_school
    else setitem by_school (domain r) (list_to_set (Spec.tokens_of r)).
Proof.
  unfold visit_school, Spec.tokens_of, Spec.entries_of.
  destruct (success r); simpl; [|done].
  destruct (officials r) as [| |m]; simpl; [done|done|].
  destruct m as [|item m]; [done|].
  change (truthy (Some (item :: m))) with true. cbv iota.
  rewrite add_tokens. rewrite <- list_fmap_compose.
  destruct (omap Spec.named (item :: m)) as [|pn l]; [done|]. done.
Qed.

Lemma officials_by_school_snoc (d : list GameResult) (r : GameResult) :
  officials_by_school (d ++ [r]) = visit_school (officials_by_school d) r.
Proof. unfold officials_by_school. by rewrite foldl_snoc. Qed.

Lemma crew_snoc (d : list GameResult) (r : GameResult) (school : string) :
  Spec.crew (d ++ [r]) school
  = if decide (domain r = school ∧ Spec.tokens_of r ≠ [])
    then Some (list_to_set (Spec.tokens_of r))
    else Spec.crew d school.
Proof.
  unfold Spec.crew. rewrite filter_app.
  destruct (decide (domain r = school ∧ Spec.tokens_of r ≠ [])) as [H|H].
  - rewrite filter_cons_True by done. rewrite filter_nil. by rewrite last_snoc.
  - rewrite filter_cons_False by done. rewrite filter_nil. by rewrite app_nil_r.
Qed.

(** The dict the first loop builds: its keys are distinct, and a domain's
    value is its crew. *)
Lemma officials_by_school_crew (d : list GameResult) :
  NoDup (keys (officials_by_school d))
  ∧ ∀ school, lookup_key (officials_by_school d) school = Spec.crew d school.
Proof.
  induction d as [|r d [IHk IHl]] using rev_ind; [split; [constructor|done]|].
  rewrite officials_by_school_snoc, visit_school_tokens.
  destruct (decide (Spec.tokens_of r = [])) as [Hnil|Hne].
  - split; [done|]. intros school. rewrite crew_snoc, IHl.
    by rewrite decide_False by (by intros [_ ?]).
  - split; [by apply NoDup_keys_setitem|]. intros school.
    rewrite lookup_key_setitem, crew_snoc, IHl.
    destruct (decide (domain r = school)) as [Heq|Hneq].
    + by rewrite decide_True.
    + by rewrite decide_False by (by intros [? _]).
Qed.

Lemma crew_nonempty (d : list GameResult) (school : string) (c : gset string) :
  Spec.crew d school = Some c → c ≠ ∅.
Proof.
  unfold Spec.crew. intros (r & Hlast & ->)%fmap_Some.
  apply last_Some_elem_of, list_elem_of_filter in Hlast as [[_ Hne] _].
  destruct (Spec.tokens_of r) as [|t ts]; [done|]. set_solver.
Qed.

Lemma elem_of_ordered_pairs {A} (l : list A) (a b : A) :
  (a, b) ∈ Spec.ordered_pairs l ↔ ∃ i j, i < j ∧ l !! i = Some a ∧ l !! j = Some b.
Proof.
  induction l as [|x l IH]; simpl.
  - split; [by intros ?%elem_of_nil|]. by intros (i & j & _ & ? & _).
  - rewrite elem_of_app, list_elem_of_fmap, IH. split.
    + intros [(b' & [= -> ->] & (j & Hj)%list_elem_of_lookup_1)|(i & j & Hij & Hi & Hj)].
      * exists 0, (S j). split; [lia|done].
      * exists (S i), (S j). split; [lia|done].
    + intros (i & j & Hij & Hi & Hj). destruct j as [|j]; [lia|]. simpl in Hj.
      destruct i as [|i]; simpl in Hi.
      * left. injection Hi as ->. exists b. split; [done|]. by eapply list_elem_of_lookup_2.
      * right. exists i, j. split; [lia|done].
Qed.

Lemma NoDup_ordered_pairs {A} (l : list A) : NoDup l → NoDup (Spec.ordered_pairs l).
Proof.
  induction 1 as [|x l Hx Hl IH]; simpl; [constructor|].
  apply NoDup_app. split; [|split; [|done]].
  - apply NoDup_fmap_2; [|done]. by intros b1 b2 [= ->].
  - intros [a b] (b' & [= -> ->] & Hb)%list_elem_of_fmap
      (i & j & _ & Hi & _)%elem_of_ordered_pairs.
    apply Hx. by eapply list_elem_of_lookup_2.
Qed.

Lemma ordered_pairs_distinct {A} (l : list A) (a b : A) :
  NoDup l → (a, b) ∈ Spec.ordered_pairs l →
  a ≠ b ∧ a ∈ l ∧ b ∈ l ∧ (b, a) ∉ Spec.ordered_pairs l.
Proof.
  intros Hl (i & j & Hij & Hi & Hj)%elem_of_ordered_pairs.
  split; [|split; [|split]].
  - intros ->. assert (i = j) by (by eapply NoDup_lookup). lia.
  - by eapply list_elem_of_lookup_2.
  - by eapply list_elem_of_lookup_2.
  - intros (j' & i' & Hji & Hj' & Hi')%elem_of_ordered_pairs.
    assert (i = i') by (by eapply NoDup_lookup).
    assert (j = j') by (by eapply NoDup_lookup). lia.
Qed.

Lemma ordered_pairs_total {A} (l : list A) (a b : A) :
  a ≠ b → a ∈ l → b ∈ l →
  (a, b) ∈ Spec.ordered_pairs l ∨ (b, a) ∈ Spec.ordered_pairs l.
Proof.
  intros Hne (i & Hi)%list_elem_of_lookup_1 (j & Hj)%list_elem_of_lookup_1.
  rewrite !elem_of_ordered_pairs.
  destruct (Nat.lt_trichotomy i j) as [?|[->|?]]; [left|congruence|right]; eauto.
Qed.

Lemma lookup_total_range (ks : list string) (a : nat) :
  (fun j => ks !!! j) <$> range a (length ks) = drop a ks.
Proof.
  unfold range. apply list_eq. intros i.
  rewrite list_lookup_fmap, lookup_drop.
  destruct (decide (i < length ks - a)) as [Hi|Hi].
  - rewrite lookup_seq_lt by done. simpl.
    symmetry. apply list_lookup_lookup_total_lt. lia.
  - rewrite lookup_seq_ge by lia. simpl.
    symmetry. apply lookup_ge_None. lia.
Qed.

(** The inner loop, for a fixed [i]. *)
Lemma inner_loop (by_school : dict (gset string)) (ks : list string) (i : nat)
    (js : list nat) (crews : list (string * string)) :
  foldl (fun crews j =>
           if bool_decide (lookup_key by_school (ks !!! i) = lookup_key by_school (ks !!! j))
           then crews ++ [(ks !!! i, ks !!! j)] else crews)
    crews js
  = crews
    ++ List.filter
         (fun ab => bool_decide (lookup_key by_school ab.1 = lookup_key by_school ab.2))
         (pair (ks !!! i) <$> ((fun j => ks !!! j) <$> js)).
Proof.
  revert crews. induction js as [|j js IH]; intros crews; csimpl.
  - by rewrite app_nil_r.
  - rewrite IH.
    destruct (bool_decide (lookup_key by_school (ks !!! i) = lookup_key by_school (ks !!! j)));
      [|done].
    by rewrite <- app_assoc.
Qed.

(** The two nested index loops list the pairs of [schools_list] whose
    values are equal. *)
Lemma identical_pairs_ordered (by_school : dict (gset string)) :
  identical_pairs by_school
  = List.filter
      (fun ab => bool_decide (lookup_key by_school ab.1 = lookup_key by_school ab.2))
      (Spec.ordered_pairs (keys by_school)).
Proof.
  unfold identical_pairs. generalize (keys by_school). intros ks.
  assert (∀ suf pre acc, ks = pre ++ suf →
    foldl (fun crews i =>
             foldl (fun crews j =>
                      if bool_decide (lookup_key by_school (ks !!! i)
                                      = lookup_key by_school (ks !!! j))
                      then crews ++ [(ks !!! i, ks !!! j)] else crews)
               crews (range (i + 1) (length ks)))
      acc (seq (length pre) (length suf))
    = acc ++ List.filter
               (fun ab => bool_decide (lookup_key by_school ab.1 = lookup_key by_school ab.2))
               (Spec.ordered_pairs suf)) as H.
  { induction suf as [|x suf IH]; intros pre acc Hks.
    - simpl. by rewrite app_nil_r.
    - cbn [length seq foldl Spec.ordered_pairs].
      rewrite inner_loop, lookup_total_range.
      assert (ks !!! length pre = x) as ->
        by (rewrite Hks; apply list_lookup_total_middle; done).
      assert (drop (length pre + 1) ks = suf) as ->.
      { rewrite Hks, (cons_middle x pre suf), app_assoc.
        rewrite drop_app_length'; [done|]. rewrite length_app. simpl. lia. }
      replace (S (length pre)) with (length (pre ++ [x]))
        by (rewrite length_app; simpl; lia).
      rewrite (IH (pre ++ [x])) by (by rewrite <- app_assoc).
      by rewrite List.filter_app, <- app_assoc. }
  unfold range at 2. rewrite Nat.sub_0_r.
  apply (H ks [] []). done.
Qed.

Lemma elem_of_identical_crews (d : list GameResult) (a b : string) :
  (a, b) ∈ identical_crews d
  ↔ (a, b) ∈ Spec.ordered_pairs (keys (officials_by_school d))
    ∧ Spec.crew d a = Spec.crew d b.
Proof.
  unfold identical_crews. rewrite identical_pairs_ordered.
  rewrite list_elem_of_In, filter_In, <- list_elem_of_In, bool_decide_eq_true.
  destruct (officials_by_school_crew d) as [_ Hcrew]. simpl. by rewrite !Hcrew.
Qed.

Lemma crew_is_Some (d : list GameResult) (school : string) :
  school ∈ keys (officials_by_school d) ↔ is_Some (Spec.crew d school).
Proof.
  destruct (officials_by_school_crew d) as [_ Hcrew].
  by rewrite lookup_key_Some, Hcrew.
Qed.

(** A pair is reported, in one order or the other, exactly when the two
    domains differ and have the same crew. *)
Lemma reported_pair_iff (d : list GameResult) (a b : string) :
  Spec.reported_pair d a b
  ↔ a ≠ b ∧ ∃ c, Spec.crew d a = Some c ∧ Spec.crew d b = Some c.
Proof.
  destruct (officials_by_school_crew d) as [Hkeys _].
  unfold Spec.reported_pair. rewrite !elem_of_identical_crews. split.
  - intros [[Hin Heq]|[Hin Heq]];
      destruct (ordered_pairs_distinct _ _ _ Hkeys Hin) as (Hne & Ha & Hb & _);
      (split; [done|]); apply crew_is_Some in Ha as [c Hc];
      exists c; split; congruence.
  - intros (Hne & c & Ha & Hb).
    destruct (ordered_pairs_total (keys (officials_by_school d)) a b) as [H|H];
      [done|apply crew_is_Some; eauto..| |].
    + left. split; [done|congruence].
    + right. split; [done|congruence].
Qed.

Lemma same_domain_same_record (d : list GameResult) (r r' : GameResult) :
  NoDup (domain <$> d) → r ∈ d → r' ∈ d → domain r = domain r' → r = r'.
Proof.
  intros Hd (i & Hi)%list_elem_of_lookup_1 (j & Hj)%list_elem_of_lookup_1 Heq.
  assert (i = j) as ->.
  { apply (NoDup_lookup (domain <$> d) i j (domain r)); [done|..];
      rewrite list_lookup_fmap; [by rewrite Hi|by rewrite Hj, Heq]. }
  congruence.
Qed.

(** With one record per domain, a domain's crew is the token set of its
    record, whatever the order of the records. *)
Lemma crew_unique_domain (d : list GameResult) (school : string) (c : gset string) :
  NoDup (domain <$> d) →
  Spec.crew d school = Some c
  ↔ ∃ r, r ∈ d ∧ domain r = school ∧ Spec.tokens_of r ≠ []
         ∧ c = list_to_set (Spec.tokens_of r).
Proof.
  intros Hd. unfold Spec.crew. rewrite fmap_Some. split.
  - intros (r & Hlast & ->). exists r.
    apply last_Some_elem_of, list_elem_of_filter in Hlast as [[? ?] ?]. done.
  - intros (r & Hin & Hdom & Hne & ->).
    destruct (last (filter (fun r => domain r = school ∧ Spec.tokens_of r ≠ []) d))
      as [r'|] eqn:Hlast.
    + exists r'. split; [done|].
      apply last_Some_elem_of, list_elem_of_filter in Hlast as [[Hdom' _] Hin'].
      by rewrite (same_domain_same_record d r r') by congruence.
    + apply last_None in Hlast.
      assert (r ∈ filter (fun r => domain r = school ∧ Spec.tokens_of r ≠ []) d) as Hr
        by (by apply list_elem_of_filter).
      rewrite Hlast in Hr. by apply elem_of_nil in Hr.
Qed.

Lemma crew_permutation (d d' : list GameResult) (school : string) :
  d' ≡ₚ d → NoDup (domain <$> d) → Spec.crew d' school = Spec.crew d school.
Proof.
  intros Hperm Hd.
  assert (NoDup (domain <$> d')) as Hd' by (by rewrite Hperm).
  apply option_eq. intros c. rewrite !crew_unique_domain by done.
  by setoid_rewrite Hperm.
Qed.

End Crews.

(** C5, as stated, fails.  A domain that has two records keeps the crew of
    the later one: [officials_by_school[school] = ...] overwrites.  The
    records of [d.com] and [e.com] with one crew are reported as a pair when
    the other record of [d.com] comes first, and not when it comes last: the
    pairs reported depend on the order of the records. *)
Lemma record_order_changes_pairs :
  [Sample.home_again; Sample.home; Sample.away]
    ≡ₚ [Sample.home; Sample.home_again; Sample.away]
  ∧ (list_to_set (Spec.tokens_of Sample.home) : gset string)
    = list_to_set (Spec.tokens_of Sample.away)
  ∧ DeepCheck.identical_crews [Sample.home; Sample.home_again; Sample.away] = []
  ∧ DeepCheck.identical_crews [Sample.home_again; Sample.home; Sample.away]
    = [("d.com", "e.com")].
Proof.
  split; [apply perm_swap|]. split; [by apply (bool_decide_unpack _)|].
  split; by vm_compute.
Qed.

(** C5 (amended): the crew of a domain is the non-empty set of
    ["position:name"] tokens of its last successful record that names an
    official.  The identical-crew check reports each unordered pair of
    distinct domains whose crews are equal, and reports it once: the output
    has no entry twice, no entry [(a, a)], and never both [(a, b)] and
    [(b, a)].  When every domain has one record, the pairs reported do not
    depend on the order of the records. *)
Theorem identical_crews_pairs (d : list GameResult) :
  (∀ a b, (a, b) ∈ DeepCheck.identical_crews d →
     a ≠ b ∧ ((b, a) ∉ DeepCheck.identical_crews d)
     ∧ ∃ c, c ≠ ∅ ∧ Spec.crew d a = Some c ∧ Spec.crew d b = Some c)
  ∧ (∀ a b c, a ≠ b → Spec.crew d a = Some c → Spec.crew d b = Some c →
       Spec.reported_pair d a b)
  ∧ NoDup (DeepCheck.identical_crews d)
  ∧ (∀ d', d' ≡ₚ d → NoDup (domain <$> d) →
       ∀ a b, Spec.reported_pair d' a b ↔ Spec.reported_pair d a b).
Proof.
  destruct (officials_by_school_crew d) as [Hkeys _].
  split; [|split; [|split]].
  - intros a b Hab.
    assert (Spec.reported_pair d a b) as Hrep by (by left).
    apply reported_pair_iff in Hrep as (Hne & c & Ha & Hb).
    split; [done|]. split.
    + apply elem_of_identical_crews in Hab as [Hab _].
      rewrite elem_of_identical_crews. intros [Hba _].
      by destruct (ordered_pairs_distinct _ _ _ Hkeys Hab) as (_ & _ & _ & ?).
    + exists c. split; [by eapply crew_nonempty|done].
  - intros a b c Hne Ha Hb. apply reported_pair_iff. eauto.
  - unfold DeepCheck.identical_crews. rewrite identical_pairs_ordered.
    apply NoDup_ListNoDup, List.NoDup_filter, NoDup_ListNoDup.
    by apply NoDup_ordered_pairs.
  - intros d' Hperm Hd a b. rewrite !reported_pair_iff.
    by rewrite !(crew_permutation d d').
Qed.

(** The sample dataset and its reverse: one pair, whichever record comes
    first. *)
Lemma identical_crews_pairs_witness :
  DeepCheck.identical_crews Sample.dataset = [("d.com", "e.com")]
  ∧ DeepCheck.identical_crews (reverse Sample.dataset) = [("e.com", "d.com")]
  ∧ (Spec.reported_pair (reverse Sample.dataset) "d.com" "e.com"
     ↔ Spec.reported_pair Sample.dataset "d.com" "e.com").
Proof.
  split; [by vm_compute|]. split; [by vm_compute|].
  apply (identical_crews_pairs Sample.dataset).
  - apply reverse_Permutation.
  - by apply (bool_decide_unpack _).
Defined.

(** ** Empty names *)

Section EmptyNames.

Lemma position_counts_entries (d : list GameResult) :
  DeepCheck.position_counts d
  = Counter ((fun e : string * string * string => e.1.2) <$> Spec.entries d).
Proof.
  unfold DeepCheck.position_counts, Counter.
  rewrite (foldl_entries DeepCheck.count_position (fun c e => incr c e.1.2)).
  - by rewrite foldl_fmap.
  - intros r st [position [[|c name]|]]; unfold Spec.named; simpl; done.
  - intros r st [position [[|c name]|]] pn; unfold Spec.named; simpl; try done.
    by intros [= <-].
Qed.

Lemma named_blank_to_null (item : string * option string) :
  Spec.named (item.1, if decide (item.2 = Some "") then None else item.2)
  = Spec.named item.
Proof.
  destruct item as [position [name|]]; unfold Spec.named; simpl; [|done].
  destruct (decide (Some name = Some "")) as [[= ->]|Hne]; simpl; done.
Qed.

Lemma entries_of_blank_to_null (r : GameResult) :
  Spec.entries_of (Spec.blank_to_null r) = Spec.entries_of r.
Proof.
  unfold Spec.entries_of, Spec.blank_to_null. simpl.
  destruct (success r); [|done].
  destruct (officials r) as [| |m]; [done|done|].
  f_equal. induction m as [|item m IH]; [done|]. csimpl.
  rewrite named_blank_to_null, IH. done.
Qed.

Lemma entries_blank_to_null (d : list GameResult) :
  Spec.entries (Spec.blank_to_null <$> d) = Spec.entries d.
Proof.
  unfold Spec.entries. induction d as [|r d IH]; [done|]. csimpl.
  by rewrite entries_of_blank_to_null, IH.
Qed.

Lemma officials_by_school_blank_to_null (d : list GameResult) :
  DeepCheck.officials_by_school (Spec.blank_to_null <$> d) = DeepCheck.officials_by_school d.
Proof.
  unfold DeepCheck.officials_by_school. rewrite foldl_fmap.
  generalize (@nil (string * gset string)). induction d as [|r d IH]; intros st; [done|].
  simpl. rewrite <- IH. f_equal.
  rewrite !visit_school_tokens. unfold Spec.tokens_of.
  by rewrite entries_of_blank_to_null.
Qed.

Lemma entries_of_only_blank (r : GameResult) :
  Spec.only_blank_names r → Spec.entries_of r = [].
Proof.
  intros (Hs & m & Hm & _ & Hall). unfold Spec.entries_of. rewrite Hs, Hm.
  assert (omap Spec.named m = []) as ->; [|done].
  clear Hm. induction Hall as [|[position name] m Hitem _ IH]; [done|]. csimpl.
  simpl in Hitem. subst name. by unfold Spec.named at 1.
Qed.

Lemma non_null_count_only_blank (m : dict (option string)) :
  Forall (fun item => item.2 = Some "") m →
  AnalyzeOfficials.non_null_count m = length m.
Proof.
  unfold AnalyzeOfficials.non_null_count, values.
  induction 1 as [|[position name] m Hitem _ IH]; [done|]. csimpl.
  simpl in Hitem. subst name. simpl. by rewrite IH.
Qed.

Lemma no_officials_only_blank (r : GameResult) (acc : list AnalyzeOfficials.entry) :
  Spec.only_blank_names r → AnalyzeOfficials.visit acc r = Return acc.
Proof.
  intros (Hs & m & Hm & Hne & Hall). unfold AnalyzeOfficials.visit.
  rewrite Hs, Hm. simpl. rewrite non_null_count_only_blank by done.
  by destruct m.
Qed.

Lemma entries_without (before after : list GameResult) (r : GameResult) :
  Spec.entries_of r = [] →
  Spec.entries (before ++ r :: after) = Spec.entries (before ++ after).
Proof.
  intros Hr. unfold Spec.entries. rewrite !bind_app. csimpl. by rewrite Hr.
Qed.

Lemma officials_by_school_without (before after : list GameResult) (r : GameResult) :
  Spec.entries_of r = [] →
  DeepCheck.officials_by_school (before ++ r :: after)
  = DeepCheck.officials_by_school (before ++ after).
Proof.
  intros Hr. unfold DeepCheck.officials_by_school. rewrite !foldl_app. simpl.
  rewrite (visit_school_tokens _ r). unfold Spec.tokens_of. by rewrite Hr.
Qed.

End EmptyNames.




(** ** Running a check twice *)

Section Runs.
Import Auditor.

Lemma sample_of_length {A} (population : list A) (k : nat) (result : list A) :
  sample_of population k result → length result = k.
Proof. intros (positions & _ & <- & Hall). symmetry. by eapply Forall2_length. Qed.

(** A sample exists when the population is large enough: its first [k]
    elements are one. *)
Lemma sample_of_take {A} (population : list A) (k : nat) :
  k ≤ length population → sample_of population k (take k population).
Proof.
  intros Hk. exists (seq 0 k). split; [apply NoDup_seq|]. split; [apply length_seq|].
  apply Forall2_same_length_lookup. split.
  - rewrite length_seq, length_take. lia.
  - intros i j x Hj Hx. apply lookup_seq in Hj as [-> Hi].
    by rewrite lookup_take_lt in Hx.
Qed.

Lemma yields_run_inv (d : list GameResult) (c : check) (r : report) :
  c ≠ RandomSample → yields d c r → run c d = Some r.
Proof. intros Hc Hy. by destruct Hy. Qed.

End Runs.

(** C9: a check other than the random sample yields the same report every
    time it is run on a dataset, and every check yields one.  A report of the
    random sample holds [min 20 n] names, [n] the number of flattened
    entries, and two runs of it can yield different reports. *)
Theorem checks_are_repeatable :
  (∀ d c r1 r2,
     c ≠ Auditor.RandomSample → Auditor.yields d c r1 → Auditor.yields d c r2 → r1 = r2)
  ∧ (∀ d c, ∃ r, Auditor.yields d c r)
  ∧ (∀ d r, Auditor.yields d Auditor.RandomSample r →
       ∃ sample, r = Auditor.RandomSampleReport sample
                 ∧ length sample = min 20 (length (Spec.entries d)))
  ∧ (∃ d r1 r2, Auditor.yields d Auditor.RandomSample r1
                ∧ Auditor.yields d Auditor.RandomSample r2 ∧ r1 ≠ r2).
Proof.
  split; [|split; [|split]].
  - intros d c r1 r2 Hc H1%yields_run_inv H2%yields_run_inv; congruence.
  - intros d c. destruct (Auditor.run c d) as [r|] eqn:Hrun.
    + exists r. by constructor.
    + destruct c; try discriminate Hrun.
      eexists. apply Auditor.yields_sample. apply sample_of_take. lia.
  - intros d r Hy. inversion Hy as [c r' Hrun|sample Hsample]; subst; [done|].
    exists sample. split; [done|].
    apply sample_of_length in Hsample. rewrite Hsample.
    rewrite collect_entries. simpl. by rewrite length_fmap.
  - exists [Sample.odd_names],
      (Auditor.RandomSampleReport ["John Doe"; "Smith Smith"; "Referee2"; "A1 A1"; "Test Example"]),
      (Auditor.RandomSampleReport ["Smith Smith"; "John Doe"; "Referee2"; "A1 A1"; "Test Example"]).
    split; [|split; [|done]]; apply Auditor.yields_sample.
    + exists [0; 1; 2; 3; 4]. split; [by apply (bool_decide_unpack _)|].
      split; [done|]. by repeat constructor.
    + exists [1; 0; 2; 3; 4]. split; [by apply (bool_decide_unpack _)|].
      split; [done|]. by repeat constructor.
Qed.

(** Any report of the name statistics on the sample dataset is this one. *)
Lemma checks_are_repeatable_witness :
  Auditor.NameStatisticsReport (CheckOfficials.name_statistics Sample.dataset)
  = Auditor.NameStatisticsReport
      {| CheckOfficials.total := 9;
         CheckOfficials.unique := 7;
         CheckOfficials.top10 :=
           [("Jane Roe", 2); ("Jim Poe", 2); ("John Doe", 1); ("Smith Smith", 1);
            ("Referee2", 1); ("A1 A1", 1); ("Test Example", 1)] |}.
Proof.
  apply (proj1 checks_are_repeatable Sample.dataset Auditor.NameStatistics).
  - discriminate.
  - by constructor.
  - constructor. by vm_compute.
Defined.

(** ** Loading *)

Section Loading.
Import Loader.
Variable files : string → file.
Variable json_decode : string → option Document.

(** Every script starts with the load: when it raises, so does the script. *)
Lemma scripts_raise (e : exn) :
  dataset files json_decode = Raise e →
  analyze_officials files json_decode = Raise e
  ∧ check_officials files json_decode = Raise e
  ∧ deep_check_officials files json_decode = Raise e
  ∧ verify_matching_games files json_decode = Raise e.
Proof.
  unfold analyze_officials, check_officials, deep_check_officials, verify_matching_games.
  by intros ->.
Qed.

Lemma scripts_run (d : list GameResult) :
  dataset files json_decode = Return d →
  analyze_officials files json_decode = AnalyzeOfficials.no_officials d
  ∧ check_officials files json_decode
    = Return (CheckOfficials.collect d, CheckOfficials.name_statistics d,
              CheckOfficials.single_names d)
  ∧ deep_check_officials files json_decode
    = (shown ← DeepCheck.check_schools d;
       Return (shown, DeepCheck.identical_crews d, DeepCheck.position_frequency d,
               DeepCheck.found_suspicious d))
  ∧ verify_matching_games files json_decode = VerifyMatchingGames.known_pairs d.
Proof.
  unfold analyze_officials, check_officials, deep_check_officials, verify_matching_games.
  by intros ->.
Qed.

(** The load returns a record list only from a file with a text that decodes
    to an object whose [results] key holds a list, and then it is that
    list. *)
Lemma dataset_returns (d : list GameResult) :
  dataset files json_decode = Return d
  ↔ ∃ text, files path = Text text ∧ json_decode text = Some (JObject (Value d)).
Proof.
  unfold dataset, load, read_text. split.
  - destruct (files path) as [| | | |text]; simpl; [done..|].
    destruct (json_decode text) as [[[| |d']|]|] eqn:Htext; simpl; [done|done| |done|done].
    intros [= ->]. by exists text.
  - intros (text & -> & Htext). simpl. by rewrite Htext.
Qed.

(** What the load raises, by what is at the path. *)
Lemma dataset_raises :
  match files path with
  | Missing => dataset files json_decode = Raise FileNotFoundError
  | Directory => dataset files json_decode = Raise IsADirectoryError
  | Denied => dataset files json_decode = Raise PermissionError
  | Undecodable => dataset files json_decode = Raise UnicodeDecodeError
  | Text text =>
      match json_decode text with
      | None => dataset files json_decode = Raise JSONDecodeError
      | Some JOther => dataset files json_decode = Raise TypeError
      | Some (JObject Absent) => dataset files json_decode = Raise (KeyError "results")
      | Some (JObject Null) => dataset files json_decode = Raise TypeError
      | Some (JObject (Value d)) => dataset files json_decode = Return d
      end
  end.
Proof.
  unfold dataset, load, read_text.
  destruct (files path) as [| | | |text]; simpl; [done..|].
  by destruct (json_decode text) as [[[| |d]|]|].
Qed.

End Loading.




(** ** The examples of the specification *)

(** A record whose official values are all null is in the "no officials"
    output and adds nothing to the flattened list. *)
Example all_null_record :
  AnalyzeOfficials.no_officials [Sample.all_null]
    = Return [Spec.reported Sample.all_null [("referee", None); ("umpire", None)]]
  ∧ Spec.entries [Sample.all_null] = []
  ∧ CheckOfficials.all_officials (CheckOfficials.collect [Sample.all_null]) = [].
Proof. by vm_compute. Qed.

Example john_doe_is_a_placeholder :
  CheckOfficials.f_reason <$> CheckOfficials.flags_of "f.com" "referee" "John Doe"
  = ["Common placeholder name"].
Proof. by vm_compute. Qed.

Example smith_smith_is_repetitive :
  CheckOfficials.f_reason <$> CheckOfficials.flags_of "f.com" "umpire" "Smith Smith"
  = ["Repetitive pattern"].
Proof. by vm_compute. Qed.

Example referee2_is_numbered :
  CheckOfficials.f_reason <$> CheckOfficials.flags_of "f.com" "judge" "Referee2"
  = ["Contains numbers"].
Proof. by vm_compute. Qed.

(** One entry can get two flags. *)
Example a1_a1_is_flagged_twice :
  CheckOfficials.f_reason <$> CheckOfficials.flags_of "f.com" "linesman" "A1 A1"
  = ["Repetitive pattern"; "Contains numbers"].
Proof. by vm_compute. Qed.

(** Two records with the same crew are one pair, in either input order. *)
Example same_crew_is_reported_once :
  DeepCheck.identical_crews [Sample.home; Sample.away] = [("d.com", "e.com")]
  ∧ DeepCheck.identical_crews [Sample.away; Sample.home] = [("e.com", "d.com")].
Proof. by vm_compute. Qed.

(** A name that matches two keywords is listed twice. *)
Example test_example_is_listed_twice :
  DeepCheck.found_suspicious [Sample.odd_names]
  = [("f.com", "clock", "Test Example"); ("f.com", "clock", "Test Example")].
Proof. by vm_compute. Qed.

(** Names that differ in letter case are counted apart. *)
Example letter_case_tells_names_apart :
  CheckOfficials.unique
    (CheckOfficials.name_statistics
       [ {| domain := "i.com"; success := true; school := Absent; gameInfo := Absent;
            officials := Value [("referee", Some "Bob Ray"); ("umpire", Some "bob ray")] |} ])
  = 2.
Proof. by vm_compute. Qed.

(* ===================================================================== *)
(** * Further properties of the scripts *)

(** ** Counters *)

Section Counters.

Lemma total_count_incr (c : dict nat) (x : string) :
  Facts.total_count (incr c x) = S (Facts.total_count c).
Proof.
  unfold Facts.total_count, incr, dict_get, values.
  induction c as [|[k v] c IH]; csimpl; [done|].
  destruct (decide (k = x)) as [->|Hne]; csimpl.
  - lia.
  - rewrite IH. lia.
Qed.

(** The counts of [Counter(xs)] add up to [len(xs)]. *)
Lemma total_count_Counter (xs : list string) :
  Facts.total_count (Counter xs) = length xs.
Proof.
  unfold Counter. induction xs as [|x xs IH] using rev_ind; [done|].
  rewrite foldl_snoc, total_count_incr, IH, length_app. simpl. lia.
Qed.

Lemma occurrences_cons (x y : string) (xs : list string) :
  Spec.occurrences x (y :: xs)
  = (if decide (y = x) then 1 else 0) + Spec.occurrences x xs.
Proof.
  unfold Spec.occurrences. destruct (decide (y = x)).
  - by rewrite filter_cons_True.
  - by rewrite filter_cons_False.
Qed.

Lemma occurrences_zero (x : string) (xs : list string) :
  Spec.occurrences x xs = 0 ↔ x ∉ xs.
Proof.
  split; [|apply occurrences_absent].
  induction xs as [|y xs IH]; [by intros _ ?%elem_of_nil|].
  rewrite occurrences_cons, not_elem_of_cons.
  destruct (decide (y = x)); [lia|]. intros H. split; [done|]. apply IH. lia.
Qed.

Lemma occurrences_pos (x : string) (xs : list string) :
  x ∈ xs → 0 < Spec.occurrences x xs.
Proof.
  intros Hx. destruct (Spec.occurrences x xs) eqn:Hocc; [|lia].
  by apply occurrences_zero in Hocc.
Qed.

(** No element twice: no element counted more than once. *)
Lemma NoDup_occurrences (xs : list string) :
  NoDup xs ↔ ∀ x, Spec.occurrences x xs ≤ 1.
Proof.
  induction xs as [|y xs IH].
  - split; [intros _ x; cbv; lia|constructor].
  - rewrite NoDup_cons, IH. split.
    + intros [Hy Hxs] x. rewrite occurrences_cons.
      destruct (decide (y = x)) as [->|Hne]; [|apply Hxs].
      apply occurrences_zero in Hy. lia.
    + intros H. split.
      * apply occurrences_zero. specialize (H y). rewrite occurrences_cons in H.
        rewrite decide_True in H by done. lia.
      * intros x. specialize (H x). rewrite occurrences_cons in H. lia.
Qed.

Lemma elem_of_tally (xs : list string) (n : string) (k : nat) :
  (n, k) ∈ Spec.tally xs ↔ n ∈ xs ∧ k = Spec.occurrences n xs.
Proof.
  unfold Spec.tally. rewrite list_elem_of_fmap. split.
  - intros (n' & [= -> ->] & Hn). by rewrite elem_of_first_seen in Hn.
  - intros [Hn ->]. exists n. split; [done|]. by apply elem_of_first_seen.
Qed.

Lemma keys_tally (xs : list string) : keys (Spec.tally xs) = Spec.first_seen xs.
Proof.
  unfold keys, Spec.tally. rewrite <- list_fmap_compose.
  induction (Spec.first_seen xs) as [|x l IH]; csimpl; [done|]. by rewrite IH.
Qed.

End Counters.

(** ** check_officials.py: duplicates and totals *)

Section Duplicates.
Import CheckOfficials.

Lemma NoDup_keys_filter {V} (p : string * V → bool) (c : dict V) :
  NoDup (keys c) → NoDup (keys (List.filter p c)).
Proof.
  unfold keys. induction c as [|[k v] c IH]; csimpl; [done|].
  intros [Hk Hc]%NoDup_cons. destruct (p (k, v)); csimpl; [|by apply IH].
  apply NoDup_cons. split; [|by apply IH].
  intros (kv & -> & Hin)%list_elem_of_fmap. apply Hk.
  apply list_elem_of_In, filter_In in Hin as [Hin _].
  apply list_elem_of_fmap. exists kv. split; [done|]. by apply list_elem_of_In.
Qed.

Lemma length_first_seen (xs : list string) : length (Spec.first_seen xs) ≤ length xs.
Proof.
  apply submseteq_length, NoDup_submseteq; [apply NoDup_first_seen|].
  intros x. by rewrite elem_of_first_seen.
Qed.

(** Counts that are all positive add up to their number exactly when each
    is one. *)
Lemma sum_is_length (l : list nat) :
  Forall (fun k => 0 < k) l → length l ≤ sum_list l ∧ (sum_list l = length l ↔ Forall (fun k => k = 1) l).
Proof.
  induction 1 as [|k l Hk Hl [IHle IHeq]]; simpl.
  - split; [done|]. split; [constructor|done].
  - split; [lia|]. rewrite Forall_cons, <- IHeq. lia.
Qed.

Lemma tally_counts_positive (xs : list string) :
  Forall (fun k => 0 < k) (values (Spec.tally xs)).
Proof.
  unfold values. apply Forall_fmap, Forall_forall. intros [n k] [Hn ->]%elem_of_tally.
  simpl. by apply occurrences_pos.
Qed.

Lemma tally_counts_one (xs : list string) :
  Forall (fun k => k = 1) (values (Spec.tally xs)) ↔ NoDup xs.
Proof.
  unfold values. rewrite Forall_fmap, Forall_forall, NoDup_occurrences. split.
  - intros H x. destruct (decide (x ∈ xs)) as [Hx|Hx].
    + specialize (H (x, Spec.occurrences x xs)). simpl in H.
      rewrite H; [done|]. by apply elem_of_tally.
    + apply occurrences_zero in Hx. lia.
  - intros H [n k] [Hn ->]%elem_of_tally. simpl.
    specialize (H n). apply occurrences_pos in Hn. lia.
Qed.

Lemma length_tally (xs : list string) :
  length (Spec.tally xs) = length (Spec.first_seen xs).
Proof. unfold Spec.tally. by rewrite length_fmap. Qed.

(** The filter that builds [duplicate_officials] keeps nothing exactly when
    no name is there twice. *)
Lemma no_repeated_name (xs : list string) :
  List.filter (fun item : string * nat => 1 <? item.2) (Spec.tally xs) = [] ↔ NoDup xs.
Proof.
  rewrite NoDup_occurrences. split.
  - intros Hnil x.
    destruct (decide (1 < Spec.occurrences x xs)) as [Hk|Hk]; [|lia].
    assert ((x, Spec.occurrences x xs)
            ∈ List.filter (fun item : string * nat => 1 <? item.2) (Spec.tally xs)) as Hf.
    { apply list_elem_of_In, filter_In. split.
      - apply list_elem_of_In, elem_of_tally. split; [|done].
        apply dec_stable. intros Hx%occurrences_zero. lia.
      - by apply Nat.ltb_lt. }
    rewrite Hnil in Hf. by apply elem_of_nil in Hf.
  - intros Hone.
    destruct (List.filter (fun item : string * nat => 1 <? item.2) (Spec.tally xs))
      as [|[n k] l] eqn:Hf; [done|].
    assert ((n, k) ∈ List.filter (fun item : string * nat => 1 <? item.2)
                       (Spec.tally xs)) as Hin by (rewrite Hf; left).
    apply list_elem_of_In, filter_In in Hin as [Hin Hk].
    apply list_elem_of_In, elem_of_tally in Hin as [_ ->].
    cbn [snd] in Hk. apply Nat.ltb_lt in Hk. specialize (Hone n). lia.
Qed.

End Duplicates.

(** The duplicates of [check_officials.py] are the names seen more than once,
    each once and with the number of its occurrences; there is none exactly
    when the flattened list names no official twice. *)
Theorem duplicates_are_repeated_names (d : list GameResult) :
  let names := CheckOfficials.all_officials (CheckOfficials.collect d) in
  (∀ n k, (n, k) ∈ CheckOfficials.duplicate_officials d
          ↔ n ∈ names ∧ k = Spec.occurrences n names ∧ 1 < k)
  ∧ NoDup (keys (CheckOfficials.duplicate_officials d))
  ∧ (CheckOfficials.duplicate_officials d = [] ↔ NoDup names).
Proof.
  intros names. unfold CheckOfficials.duplicate_officials, CheckOfficials.name_counts.
  fold names. rewrite Counter_tally. split; [|split].
  - intros n k. rewrite list_elem_of_In, filter_In, <- list_elem_of_In, elem_of_tally.
    simpl. rewrite Nat.ltb_lt. tauto.
  - apply NoDup_keys_filter. rewrite keys_tally. apply NoDup_first_seen.
  - apply no_repeated_name.
Qed.

(** The figures [check_officials.py] prints fit together: the counter has one
    entry per distinct name, its counts add up to the total, the top ten are
    ten entries or all of them, and the two figures are equal exactly when
    there is no duplicate. *)
Theorem name_counts_add_up (d : list GameResult) :
  let stats := CheckOfficials.name_statistics d in
  length (CheckOfficials.name_counts d) = CheckOfficials.unique stats
  ∧ Facts.total_count (CheckOfficials.name_counts d) = CheckOfficials.total stats
  ∧ length (CheckOfficials.top10 stats) = min 10 (CheckOfficials.unique stats)
  ∧ CheckOfficials.unique stats ≤ CheckOfficials.total stats
  ∧ (CheckOfficials.unique stats = CheckOfficials.total stats
     ↔ CheckOfficials.duplicate_officials d = []).
Proof.
  intros stats. subst stats.
  unfold CheckOfficials.name_statistics, CheckOfficials.name_counts. simpl.
  set (names := CheckOfficials.all_officials (CheckOfficials.collect d)).
  rewrite size_names.
  assert (length (Counter names) = length (Spec.first_seen names)) as Hlen
    by (by rewrite Counter_tally, length_tally).
  split; [done|]. split; [apply total_count_Counter|].
  split.
  { by rewrite length_take, (Permutation_length (sorted_desc_perm _)), Hlen. }
  split; [apply length_first_seen|].
  rewrite <- Hlen, <- (total_count_Counter names).
  unfold CheckOfficials.duplicate_officials, CheckOfficials.name_counts, Facts.total_count.
  fold names. rewrite (Counter_tally names).
  destruct (sum_is_length (values (Spec.tally names))) as [_ Hsum];
    [apply tally_counts_positive|].
  replace (length (Spec.tally names)) with (length (values (Spec.tally names)))
    by (unfold values; by rewrite length_fmap).
  rewrite no_repeated_name, <- tally_counts_one, <- Hsum. split; congruence.
Qed.

(** ** deep_check_officials.py: positions *)

(** The position counter lists every position that has a named official
    once, in first-seen order, with the number of its named officials;
    [most_common()] reorders it by descending count, first-seen order among
    equal counts; and the counts add up to the number of flattened
    entries. *)
Theorem position_frequency_counts (d : list GameResult) :
  let positions := (fun e : string * string * string => e.1.2) <$> DeepCheck.all_names d in
  DeepCheck.position_counts d = Spec.tally positions
  ∧ DeepCheck.position_frequency d ≡ₚ Spec.tally positions
  ∧ StronglySorted (Spec.ranks_before positions) (DeepCheck.position_frequency d)
  ∧ Facts.total_count (DeepCheck.position_frequency d) = length (DeepCheck.all_names d).
Proof.
  intros positions. subst positions. unfold DeepCheck.position_frequency. simpl.
  rewrite position_counts_entries, all_names_entries, Counter_tally.
  split; [done|]. split; [apply sorted_desc_perm|].
  split; [apply sorted_desc_sorted, tally_sorted|].
  unfold Facts.total_count, values.
  rewrite (sorted_desc_perm _), <- Counter_tally.
  fold (values (Counter ((fun e : string * string * string => e.1.2) <$> Spec.entries d))).
  fold (Facts.total_count
          (Counter ((fun e : string * string * string => e.1.2) <$> Spec.entries d))).
  by rewrite total_count_Counter, length_fmap.
Qed.

(** The two scripts flatten alike: the entries of the deep check carry the
    names of [check_officials.py], in the same order. *)
Theorem flattened_lists_agree (d : list GameResult) :
  snd <$> DeepCheck.all_names d = CheckOfficials.all_officials (CheckOfficials.collect d)
  ∧ length (DeepCheck.all_names d)
    = CheckOfficials.total (CheckOfficials.name_statistics d).
Proof.
  rewrite all_names_entries. unfold CheckOfficials.name_statistics.
  rewrite collect_entries. simpl. by rewrite length_fmap.
Qed.

(** ** check_officials.py: single-word names and the sample *)

Section SingleNames.
Import CheckOfficials.

Lemma one_part_iff (name : string) :
  length (split name) = 1 ↔ Facts.one_part name.
Proof.
  unfold Facts.one_part, split. split.
  - intros Hlen.
    destruct (split_from_none name)
      as [[_ Hnil]|(a & p & rest & Ha & Hp & Hrest & -> & Hsplit)];
      [by rewrite Hnil in Hlen|].
    rewrite Hsplit in Hlen.
    destruct (split_from_none rest)
      as [[Hblank _]|(? & ? & ? & _ & _ & _ & _ & Hsplit')];
      [|by rewrite Hsplit' in Hlen].
    by exists a, p, rest.
  - intros (a & p & c & Ha & Hp & Hc & ->).
    rewrite split_from_blank, split_from_part by done. rewrite app_empty_l.
    destruct c as [|sp c]; [done|].
    unfold Spec.blank in Hc. simpl in Hc. apply andb_true_iff in Hc as [Hsp Hc].
    simpl. rewrite Hsp. fold (split c). by rewrite split_blank.
Qed.

(** A filter keeps every occurrence of an element it keeps. *)
Lemma occurrences_filter (p : string → bool) (x : string) (xs : list string) :
  p x = true → Spec.occurrences x (List.filter p xs) = Spec.occurrences x xs.
Proof.
  intros Hx. induction xs as [|y xs IH]; [done|]. simpl.
  destruct (p y) eqn:Hy.
  - by rewrite !occurrences_cons, IH.
  - rewrite occurrences_cons, IH. rewrite decide_False; [done|]. congruence.
Qed.

Lemma filter_sublist {A} (p : A → bool) (l : list A) : List.filter p l `sublist_of` l.
Proof.
  induction l as [|x l IH]; simpl; [constructor|].
  destruct (p x); by constructor.
Qed.

End SingleNames.

(** The single-word names are the flattened names, in order and as often as
    they occur, that are one part with at most whitespace around it: the
    list is the flattened list filtered by that property, so a name that is
    there twice is listed twice; a name padded with blanks is listed, a name
    of blanks only is not.  At most ten of them are printed, the first
    ones. *)
Theorem single_names_are_one_part (d : list GameResult) :
  let names := CheckOfficials.all_officials (CheckOfficials.collect d) in
  (∀ n, n ∈ CheckOfficials.single_names d ↔ n ∈ names ∧ Facts.one_part n)
  ∧ (∃ keep : string → bool,
       (∀ n, keep n = true ↔ Facts.one_part n)
       ∧ CheckOfficials.single_names d = List.filter keep names)
  ∧ (∀ n, Facts.one_part n →
          Spec.occurrences n (CheckOfficials.single_names d) = Spec.occurrences n names)
  ∧ CheckOfficials.single_names d `sublist_of` names
  ∧ CheckOfficials.shown_single_names d `prefix_of` CheckOfficials.single_names d
  ∧ length (CheckOfficials.shown_single_names d)
    = min 10 (length (CheckOfficials.single_names d)).
Proof.
  intros names. unfold CheckOfficials.shown_single_names, CheckOfficials.single_names.
  fold names. split; [|split; [|split; [|split; [|split]]]].
  - intros n. rewrite list_elem_of_In, filter_In, <- list_elem_of_In.
    by rewrite Nat.eqb_eq, one_part_iff.
  - exists (fun name => length (split name) =? 1). split; [|done].
    intros n. by rewrite Nat.eqb_eq, one_part_iff.
  - intros n Hn%one_part_iff. by apply occurrences_filter, Nat.eqb_eq.
  - apply filter_sublist.
  - apply prefix_take.
  - apply length_take.
Qed.

Section Sampling.
Import CheckOfficials.

Lemma sample_of_positions {A} `{!Inhabited A} (population : list A) (positions : list nat)
    (result : list A) :
  Forall2 (fun i x => population !! i = Some x) positions result →
  result = (fun i => population !!! i) <$> positions
  ∧ Forall (fun i => i < length population) positions.
Proof.
  induction 1 as [|i x positions result Hi _ [-> IH]]; [done|].
  split.
  - csimpl. f_equal. symmetry. by apply list_lookup_total_correct.
  - constructor; [|done]. by eapply lookup_lt_Some.
Qed.

(** What [random.sample] can return: names of the population, none more
    often than the population has it. *)
Lemma sample_of_submseteq (population : list string) (k : nat) (result : list string) :
  sample_of population k result →
  result ⊆+ population ∧ (length population ≤ k → result ≡ₚ population).
Proof.
  intros (positions & Hnodup & Hlen & Hall).
  apply sample_of_positions in Hall as [-> Hlt].
  assert (positions ⊆+ seq 0 (length population)) as Hsub.
  { apply NoDup_submseteq; [done|]. intros i Hi. apply elem_of_seq.
    rewrite Forall_forall in Hlt. specialize (Hlt i Hi). lia. }
  pose proof (lookup_total_range population 0) as Hrange.
  unfold DeepCheck.range in Hrange. rewrite Nat.sub_0_r in Hrange. simpl in Hrange.
  split.
  - apply (fmap_submseteq (fun j => population !!! j)) in Hsub.
    by rewrite Hrange in Hsub.
  - intros Hk.
    assert (positions ≡ₚ seq 0 (length population)) as Hperm
      by (apply submseteq_length_Permutation; [done|]; rewrite length_seq; lia).
    apply (fmap_Permutation (fun j => population !!! j)) in Hperm.
    by rewrite Hrange in Hperm.
Qed.

End Sampling.

(** A random sample is drawn from the flattened names without replacement:
    it holds no name more often than the list does, and when the list has at
    most twenty names the sample is the whole list in some order. *)
Theorem sample_is_drawn_from_names (d : list GameResult) (sample : list string) :
  CheckOfficials.sample_officials d sample →
  let names := CheckOfficials.all_officials (CheckOfficials.collect d) in
  sample ⊆+ names ∧ (length names ≤ 20 → sample ≡ₚ names).
Proof.
  intros Hsample names. unfold CheckOfficials.sample_officials in Hsample.
  apply sample_of_submseteq in Hsample as [Hsub Hperm]. split; [done|].
  subst names. intros Hlen. apply Hperm. lia.
Qed.

(** Five names, drawn in another order. *)
Lemma sample_is_drawn_from_names_witness :
  let names := CheckOfficials.all_officials (CheckOfficials.collect [Sample.odd_names]) in
  ["Smith Smith"; "John Doe"; "Referee2"; "A1 A1"; "Test Example"] ⊆+ names
  ∧ (length names ≤ 20 →
     ["Smith Smith"; "John Doe"; "Referee2"; "A1 A1"; "Test Example"] ≡ₚ names).
Proof.
  apply (sample_is_drawn_from_names [Sample.odd_names]).
  exists [1; 0; 2; 3; 4]. split; [by apply (bool_decide_unpack _)|].
  split; [done|]. by repeat constructor.
Defined.

(** ** verify_matching_games.py: the opponent lookup *)

Section Games.
Import VerifyMatchingGames.

Lemma visit_has_game (games : dict (option string)) (r : GameResult) :
  visit games r
  = if Facts.has_game r
    then setitem games (domain r) (Facts.listed_opponent r)
    else games.
Proof.
  unfold visit, Facts.has_game, Facts.listed_opponent, dict_get.
  destruct (success r); simpl; [|done].
  destruct (gameInfo r) as [| |[|item info]]; done.
Qed.

Lemma game_snoc (d : list GameResult) (r : GameResult) (school : string) :
  Facts.game (d ++ [r]) school
  = if decide (domain r = school ∧ Facts.has_game r = true)
    then Some (Facts.listed_opponent r)
    else Facts.game d school.
Proof.
  unfold Facts.game. rewrite filter_app.
  destruct (decide (domain r = school ∧ Facts.has_game r = true)) as [H|H].
  - rewrite filter_cons_True by done. rewrite filter_nil. by rewrite last_snoc.
  - rewrite filter_cons_False by done. rewrite filter_nil. by rewrite app_nil_r.
Qed.

Lemma school_games_game (d : list GameResult) :
  NoDup (keys (school_games d))
  ∧ ∀ school, lookup_key (school_games d) school = Facts.game d school.
Proof.
  unfold school_games.
  induction d as [|r d [IHk IHl]] using rev_ind; [split; [constructor|done]|].
  rewrite foldl_snoc, visit_has_game.
  destruct (Facts.has_game r) eqn:Hr.
  - split; [by apply NoDup_keys_setitem|]. intros school.
    rewrite lookup_key_setitem, game_snoc, IHl.
    destruct (decide (domain r = school)) as [Heq|Hneq].
    + by rewrite decide_True.
    + by rewrite decide_False by (by intros [? _]).
  - split; [done|]. intros school. rewrite game_snoc, IHl.
    by rewrite decide_False by (rewrite Hr; by intros [_ ?]).
Qed.

End Games.

(** [school_games] maps every domain that has a successful record with a
    non-empty [gameInfo] to the opponent its last such record lists,
    ["Unknown"] without the key; each domain is there once.  A record with an
    empty [gameInfo] does not enter, so its domain reads "Not found" unless
    another record gives it a game. *)
Theorem school_games_keeps_last_game (d : list GameResult) :
  NoDup (keys (VerifyMatchingGames.school_games d))
  ∧ (∀ school,
       lookup_key (VerifyMatchingGames.school_games d) school = Facts.game d school)
  ∧ (∀ school,
       dict_get (VerifyMatchingGames.school_games d) school (Some "Not found")
       = default (Some "Not found") (Facts.game d school))
  ∧ (∀ r, Facts.has_game r = true
          ↔ success r = true ∧ ∃ info, gameInfo r = Value info ∧ info ≠ []).
Proof.
  destruct (school_games_game d) as [Hkeys Hlookup].
  split; [done|]. split; [done|]. split.
  - intros school. unfold dict_get. rewrite Hlookup. by destruct (Facts.game d school).
  - intros r. unfold Facts.has_game. rewrite andb_true_iff. split.
    + intros [Hs Hg]. split; [done|].
      destruct (gameInfo r) as [| |[|item info]]; try done. by eexists.
    + intros [Hs (info & -> & Hne)]. split; [done|]. by destruct info.
Qed.

(** ** verify_matching_games.py: the chain of tests *)

Section Chain.
Import VerifyMatchingGames.

(** Operands that return: [or] is the disjunction. *)
Lemma any_of_cons_Return (b : bool) (tests : list (py bool)) :
  any_of (Return b :: tests) = if b then Return true else any_of tests.
Proof. reflexivity. Qed.

Lemma any_of_any_of_Return (b : bool) (inner tests : list (py bool)) :
  any_of (any_of (Return b :: inner) :: tests)
  = if b then Return true else any_of (any_of inner :: tests).
Proof. by destruct b. Qed.

Lemma any_of_any_of_nil (tests : list (py bool)) :
  any_of (any_of [] :: tests) = any_of tests.
Proof. reflexivity. Qed.

Lemma playing_each_other_strings (a b : string) :
  playing_each_other (Some a) (Some b) = Return (Facts.any_test a b).
Proof.
  unfold playing_each_other, Facts.any_test, Facts.tests, occurs_in.
  cbn [existsb fst snd].
  repeat (rewrite any_of_any_of_Return;
          match goal with
          | |- context [if contains ?s ?n then _ else _] =>
              destruct (contains s n); [reflexivity|]
          end;
          rewrite ?any_of_any_of_nil).
  reflexivity.
Qed.

Lemma playing_each_other_opp2_null (opp1 : option string) :
  playing_each_other opp1 None = Raise TypeError.
Proof. reflexivity. Qed.

Lemma playing_each_other_opp1_null (b : string) :
  playing_each_other None (Some b)
  = if contains b "Alabama" then Return true else Raise TypeError.
Proof.
  unfold playing_each_other, occurs_in. rewrite any_of_any_of_Return.
  by destruct (contains b "Alabama").
Qed.

End Chain.

(** The chain of substring tests looks at the two opponents only, not at the
    pair being checked: on two strings it never raises and prints its line
    when one of the eighteen tests passes.  A null second opponent raises
    [TypeError] at once; a null first opponent raises unless the second one
    contains "Alabama", which ends the chain before the first is read.  Two
    schools without a game ("Not found" twice) do not get the line; neither
    does the last pair of the table with the opponents its comment expects,
    Troy playing "Clemson" and Clemson playing "Troy", because the chain
    looks for "Clemson" in the second opponent and for "Troy" in the first. *)
Theorem chain_tests_any_pair :
  (∀ a b, VerifyMatchingGames.playing_each_other (Some a) (Some b)
          = Return (Facts.any_test a b))
  ∧ (∀ opp1, VerifyMatchingGames.playing_each_other opp1 None = Raise TypeError)
  ∧ (∀ b, VerifyMatchingGames.playing_each_other None (Some b)
          = if contains b "Alabama" then Return true else Raise TypeError)
  ∧ Facts.any_test "Not found" "Not found" = false
  ∧ Facts.any_test "Clemson" "Troy" = false
  ∧ Facts.any_test "ULM" "Alabama" = true.
Proof.
  split; [apply playing_each_other_strings|].
  split; [apply playing_each_other_opp2_null|].
  split; [apply playing_each_other_opp1_null|]. by vm_compute.
Qed.

(** ** verify_matching_games.py: the eight pairs *)

Section Pairs.
Import VerifyMatchingGames.

Lemma for_each_collect_one {A B} (f : A → py B) (g : A → B) (xs : list A) (acc : list B) :
  (∀ x, x ∈ xs → f x = Return (g x)) →
  for_each xs (fun (printed : list B) x => v ← f x; Return (printed ++ [v])) acc
  = Return (acc ++ (g <$> xs)).
Proof.
  revert acc. induction xs as [|x xs IH]; intros acc Hf.
  - simpl. by rewrite app_nil_r.
  - cbn [for_each]. rewrite (Hf x) by left. simpl.
    rewrite IH by (intros y Hy; apply Hf; by right).
    by rewrite <- app_assoc.
Qed.

Lemma dict_get_school_games (d : list GameResult) (school : string) :
  Facts.game d school ≠ Some None →
  dict_get (school_games d) school (Some "Not found")
  = Some (Facts.opponent_name d school).
Proof.
  intros Hgame. unfold dict_get, Facts.opponent_name.
  rewrite (proj2 (school_games_game d)).
  by destruct (Facts.game d school) as [[opponent|]|].
Qed.

End Pairs.

(** When the game of none of the sixteen schools lists a null opponent, the
    loop over [pairs_to_check] raises nothing and prints its eight blocks in
    the order of the table; each block names the opponents found ("Not found"
    for a school without a game), and has the "playing each other" line when
    one of the tests of the chain passes. *)
Theorem known_pairs_prints_every_pair (d : list GameResult) :
  (∀ pair, pair ∈ VerifyMatchingGames.pairs_to_check →
           Facts.game d pair.1 ≠ Some None ∧ Facts.game d pair.2 ≠ Some None) →
  VerifyMatchingGames.known_pairs d
  = Return (Facts.verdict_of d <$> VerifyMatchingGames.pairs_to_check).
Proof.
  intros Hgames. unfold VerifyMatchingGames.known_pairs.
  apply (for_each_collect_one _ (Facts.verdict_of d) _ []).
  intros [school1 school2] Hpair. destruct (Hgames _ Hpair) as [H1 H2].
  unfold VerifyMatchingGames.check_pair, Facts.verdict_of. cbn [fst snd] in *.
  rewrite !dict_get_school_games by done.
  by rewrite playing_each_other_strings.
Qed.

(** Alabama and ULM name each other, Florida has a game without an opponent
    and the other schools have no game: the first block has the line, the
    second reads "Unknown" and "Not found" and has not. *)
Lemma known_pairs_prints_every_pair_witness :
  VerifyMatchingGames.known_pairs Sample.alabama_ulm
  = Return (Facts.verdict_of Sample.alabama_ulm <$> VerifyMatchingGames.pairs_to_check)
  ∧ take 2 (Facts.verdict_of Sample.alabama_ulm <$> VerifyMatchingGames.pairs_to_check)
    = [ {| VerifyMatchingGames.v_school1 := "rolltide.com";
           VerifyMatchingGames.v_opp1 := Some "ULM";
           VerifyMatchingGames.v_school2 := "ulmwarhawks.com";
           VerifyMatchingGames.v_opp2 := Some "Alabama";
           VerifyMatchingGames.v_each_other := true |};
        {| VerifyMatchingGames.v_school1 := "floridagators.com";
           VerifyMatchingGames.v_opp1 := Some "Unknown";
           VerifyMatchingGames.v_school2 := "gousfbulls.com";
           VerifyMatchingGames.v_opp2 := Some "Not found";
           VerifyMatchingGames.v_each_other := false |} ].
Proof.
  split; [|by vm_compute].
  apply (known_pairs_prints_every_pair Sample.alabama_ulm).
  intros pair Hpair.
  repeat (apply elem_of_cons in Hpair as [->|Hpair]; [by split; vm_compute|]).
  by apply elem_of_nil in Hpair.
Defined.

(** ** deep_check_officials.py: the schools shown first *)

Section FirstRecords.
Import DeepCheck.

Lemma named_lines_named (m : dict (option string)) : named_lines m = omap Spec.named m.
Proof.
  unfold named_lines. induction m as [|[position [name|]] m IH]; [done|..]; csimpl.
  - rewrite <- IH. unfold Spec.named. cbn [snd fst].
    destruct name as [|c name]; done.
  - by rewrite <- IH.
Qed.

Lemma show_well_formed (school : string) (r : GameResult) :
  Facts.well_formed r → show school r = Return (Facts.shown_of school r).
Proof.
  intros [(info & opponent & Hinfo & Hopp) Hoff].
  unfold show, opponent_of, Facts.shown_of, Facts.listed_opponent, Spec.officials_or_empty.
  rewrite Hinfo. simpl. rewrite Hopp. simpl.
  destruct (officials r) as [| |m]; simpl; [done|done|].
  by rewrite named_lines_named.
Qed.

Lemma show_returns (school : string) (r : GameResult) (s : shown) :
  show school r = Return s → Facts.well_formed r.
Proof.
  unfold show, opponent_of, Facts.well_formed.
  destruct (gameInfo r) as [| |info]; simpl; [done|done|].
  destruct (lookup_key info "opponent") as [opponent|] eqn:Hopp; simpl; [|done].
  destruct (officials r) as [| |m]; simpl; [|done|]; intros _; (split; [by eauto|done]).
Qed.

Lemma first_match_first_successful (school : string) (d : list GameResult) :
  first_match school d
  = match Facts.first_successful school d with
    | Some r => s ← show school r; Return [s]
    | None => Return []
    end.
Proof.
  unfold Facts.first_successful. induction d as [|r d IH]; [done|].
  cbn [first_match].
  destruct (decide (domain r = school ∧ success r = true)) as [[Hd Hs]|Hno].
  - rewrite filter_cons_True by done. by rewrite bool_decide_eq_true_2, Hs.
  - rewrite filter_cons_False by done. rewrite <- IH.
    destruct (bool_decide (domain r = school)) eqn:Hd; [|done].
    apply bool_decide_eq_true in Hd.
    destruct (success r) eqn:Hs; [|done]. by destruct Hno.
Qed.

Lemma for_each_collect {A B} (f : A → py (list B)) (g : A → list B)
    (xs : list A) (acc : list B) :
  (∀ x, x ∈ xs → f x = Return (g x)) →
  for_each xs (fun (printed : list B) x => s ← f x; Return (printed ++ s)) acc
  = Return (acc ++ xs ≫= g).
Proof.
  revert acc. induction xs as [|x xs IH]; intros acc Hf.
  - simpl. by rewrite app_nil_r.
  - cbn [for_each]. rewrite (Hf x) by left. simpl.
    rewrite IH by (intros y Hy; apply Hf; by right).
    by rewrite <- app_assoc.
Qed.

Lemma for_each_collect_returns {A B} (f : A → py (list B)) (xs : list A)
    (acc vs : list B) :
  for_each xs (fun (printed : list B) x => s ← f x; Return (printed ++ s)) acc = Return vs →
  ∀ x, x ∈ xs → ∃ s, f x = Return s.
Proof.
  revert acc. induction xs as [|x xs IH]; intros acc Hrun y Hy.
  - by apply elem_of_nil in Hy.
  - cbn [for_each] in Hrun. destruct (f x) as [e|s] eqn:Hx; [done|].
    apply elem_of_cons in Hy as [->|Hy]; [by eauto|]. by apply (IH _ Hrun).
Qed.

Lemma check_schools_well_formed (d : list GameResult) :
  (∀ school r, school ∈ schools_to_check →
               Facts.first_successful school d = Some r → Facts.well_formed r) →
  check_schools d = Return (Facts.shown_first d).
Proof.
  intros Hwf. unfold check_schools, Facts.shown_first.
  apply (for_each_collect _ _ _ []). intros school Hschool.
  rewrite first_match_first_successful.
  destruct (Facts.first_successful school d) as [r|] eqn:Hr; [|done].
  by rewrite (show_well_formed school r (Hwf school r Hschool Hr)).
Qed.

Lemma check_schools_returns (d : list GameResult) (vs : list shown) :
  check_schools d = Return vs →
  ∀ school r, school ∈ schools_to_check →
              Facts.first_successful school d = Some r → Facts.well_formed r.
Proof.
  intros Hrun school r Hschool Hr.
  destruct (for_each_collect_returns _ _ _ _ Hrun school Hschool) as [s Hs].
  rewrite first_match_first_successful, Hr in Hs.
  destruct (show school r) as [e|s'] eqn:Hshow; [done|]. by eapply show_returns.
Qed.

End FirstRecords.

(** The first block looks at one record per listed school, the first
    successful one of that domain, and at no later one.  It returns exactly
    when each such record has a [gameInfo] mapping with the key [opponent] and
    an [officials] key that is not null, and then shows the schools that have
    such a record in the order of the list, each with its opponent and its
    non-empty names. *)
Theorem check_schools_reads_first_record (d : list GameResult) :
  (DeepCheck.check_schools d = Return (Facts.shown_first d)
   ↔ ∀ school r, school ∈ DeepCheck.schools_to_check →
                 Facts.first_successful school d = Some r → Facts.well_formed r)
  ∧ (∀ vs, DeepCheck.check_schools d = Return vs → vs = Facts.shown_first d)
  ∧ (∀ school r rest, domain r = school → success r = true →
                      Facts.first_successful school (r :: rest) = Some r)
  ∧ DeepCheck.check_schools Facts.two_rolltide_records
    = Return [Facts.shown_of "rolltide.com"
                {| domain := "rolltide.com"; success := true; school := Absent;
                   gameInfo := Value [("opponent", Some "ULM")];
                   officials := Value [("referee", Some "Jane Roe"); ("umpire", Some "")] |}].
Proof.
  split; [|split; [|split]].
  - split; [apply check_schools_returns|apply check_schools_well_formed].
  - intros vs Hrun.
    pose proof (check_schools_well_formed d (check_schools_returns d vs Hrun)) as Hshown.
    congruence.
  - intros school r rest Hd Hs. unfold Facts.first_successful.
    by rewrite filter_cons_True.
  - by vm_compute.
Qed.

(** ** verify_matching_games.py: the sample of major schools *)

Section Majors.
Import VerifyMatchingGames.

Lemma first_major_first_successful (school : string) (d : list GameResult) :
  first_major school d
  = match Facts.first_successful school d with
    | Some r => sample_of_record school r
    | None => []
    end.
Proof.
  unfold Facts.first_successful. induction d as [|r d IH]; [done|].
  cbn [first_major].
  destruct (decide (domain r = school ∧ success r = true)) as [[Hd Hs]|Hno].
  - rewrite filter_cons_True by done. by rewrite bool_decide_eq_true_2, Hs.
  - rewrite filter_cons_False by done. rewrite <- IH.
    destruct (bool_decide (domain r = school)) eqn:Hd; [|done].
    apply bool_decide_eq_true in Hd.
    destruct (success r) eqn:Hs; [|done]. by destruct Hno.
Qed.

Lemma any_truthy_named (m : dict (option string)) :
  existsb truthy (values m) = true ↔ omap Spec.named m ≠ [].
Proof.
  unfold values. induction m as [|[position [[|c name]|]] m IH]; csimpl.
  - done.
  - apply IH.
  - done.
  - apply IH.
Qed.

Lemma named_at_name_at (key : string) (r : GameResult) (m : dict (option string)) :
  officials r = Value m → named_at m key = Facts.name_at key r.
Proof.
  intros Hm. unfold named_at, Facts.name_at, Spec.officials_or_empty, dict_get.
  rewrite Hm. by destruct (lookup_key m key) as [[[|c name]|]|].
Qed.

Lemma sample_of_record_entries (school : string) (r : GameResult) :
  success r = true →
  sample_of_record school r
  = if decide (Spec.entries_of r = []) then [] else [Facts.sampled_of school r].
Proof.
  intros Hs. unfold sample_of_record, Spec.entries_of, Facts.sampled_of. rewrite Hs.
  destruct (officials r) as [| |m] eqn:Hm; simpl; [done|done|].
  rewrite !(named_at_name_at _ r m Hm).
  destruct (existsb truthy (values m)) eqn:Hany.
  - apply any_truthy_named in Hany. rewrite andb_true_r.
    destruct m as [|item m]; [done|]. change (truthy (item :: m)) with true. cbv iota.
    rewrite decide_False; [done|]. by intros Hnil%fmap_nil_inv.
  - rewrite andb_false_r. rewrite decide_True; [done|].
    destruct (omap Spec.named m) eqn:Hnamed; [done|].
    assert (existsb truthy (values m) = true) as Htrue; [|congruence].
    apply any_truthy_named. by rewrite Hnamed.
Qed.

Lemma name_at_entry (key name : string) (r : GameResult) :
  success r = true → Facts.name_at key r = Some name →
  name ≠ "" ∧ (domain r, key, name) ∈ Spec.entries_of r.
Proof.
  intros Hs. unfold Facts.name_at, Spec.entries_of, Spec.officials_or_empty. rewrite Hs.
  destruct (officials r) as [| |m]; [done|done|].
  destruct (lookup_key m key) as [[name'|]|] eqn:Hkey; [|done|done].
  destruct (decide (name' = "")) as [|Hne]; [done|]. intros [= ->]. split; [done|].
  apply (list_elem_of_fmap_2 (fun pn : string * string => (domain r, pn.1, pn.2)) _ (key, name)).
  apply list_elem_of_omap. exists (key, Some name). split.
  - clear Hne. induction m as [|[k v] m IH]; [done|]. simpl in Hkey.
    destruct (decide (k = key)) as [->|]; [injection Hkey as ->; left|right; auto].
  - unfold Spec.named. cbn [fst snd]. by rewrite decide_False.
Qed.

End Majors.

(** The last block looks at the first successful record of each of the four
    major schools, and at no later one.  The school is shown exactly when
    that record contributes an entry to the flattened list, that is when some
    official of it has a non-empty name; the referee and umpire lines appear
    for the names that are non-empty strings, and every name shown is an entry
    of the flattened list.  Nothing in the block raises. *)
Theorem sample_majors_shows_named_crews (d : list GameResult) :
  VerifyMatchingGames.sample_majors d = Facts.sampled_first d
  ∧ (∀ school r, success r = true →
       VerifyMatchingGames.sample_of_record school r
       = if decide (Spec.entries_of r = []) then [] else [Facts.sampled_of school r])
  ∧ (∀ key name r, success r = true → Facts.name_at key r = Some name →
       name ≠ "" ∧ (domain r, key, name) ∈ Spec.entries_of r).
Proof.
  split; [|split; [apply sample_of_record_entries|apply name_at_entry]].
  unfold VerifyMatchingGames.sample_majors, Facts.sampled_first.
  rewrite foldl_append. rewrite app_nil_l.
  apply list_bind_ext; [|done]. intros school.
  rewrite first_major_first_successful.
  destruct (Facts.first_successful school d) as [r|] eqn:Hr; [|done].
  apply sample_of_record_entries.
  unfold Facts.first_successful in Hr. apply head_Some_elem_of in Hr.
  by apply list_elem_of_filter in Hr as [[_ ?] _].
Qed.

(** ** analyze_officials.py: how the check ends *)

Section Outcome.
Import AnalyzeOfficials.

Lemma null_gameInfo_cases (d : list GameResult) :
  (∃ r, r ∈ d ∧ Spec.lacks_officials r = true ∧ gameInfo r = Null)
  ∨ (∀ r, r ∈ d → Spec.lacks_officials r = true → gameInfo r ≠ Null).
Proof.
  induction d as [|r d [(r' & Hin & H)|IH]].
  - right. by intros r ?%elem_of_nil.
  - left. exists r'. split; [by right|done].
  - destruct (Spec.lacks_officials r) eqn:Hr.
    + destruct (gameInfo r) as [| |info] eqn:Hg.
      * right. intros r' [->|Hin]%elem_of_cons; [by rewrite Hg|by apply IH].
      * left. exists r. split; [by left|done].
      * right. intros r' [->|Hin]%elem_of_cons; [by rewrite Hg|by apply IH].
    + right. intros r' [->|Hin]%elem_of_cons; [by rewrite Hr|by apply IH].
Qed.

End Outcome.

(** The "no officials extracted" check ends in one of two ways.  It raises
    [AttributeError] exactly when some record it would report -- successful,
    [officials] absent or a mapping with every value null -- holds a null
    [gameInfo]; otherwise it returns the list of the reported records.  It
    raises no other error. *)
Theorem no_officials_ends_in_two_ways (d : list GameResult) :
  (AnalyzeOfficials.no_officials d = Raise AttributeError
   ↔ ∃ r, r ∈ d ∧ Spec.lacks_officials r = true ∧ gameInfo r = Null)
  ∧ (AnalyzeOfficials.no_officials d = Return (Spec.expected_no_officials d)
     ↔ ∀ r, r ∈ d → Spec.lacks_officials r = true → gameInfo r ≠ Null)
  ∧ (∀ e, AnalyzeOfficials.no_officials d = Raise e → e = AttributeError)
  ∧ (∀ out, AnalyzeOfficials.no_officials d = Return out →
            out = Spec.expected_no_officials d).
Proof.
  assert (∀ d, (∀ r, r ∈ d → Spec.lacks_officials r = true → gameInfo r ≠ Null) →
               AnalyzeOfficials.no_officials d = Return (Spec.expected_no_officials d))
    as Hreturns.
  { intros d' Hd'. unfold AnalyzeOfficials.no_officials. by rewrite for_each_visit. }
  destruct (null_gameInfo_cases d) as [Hnull|Hfine].
  - pose proof (no_officials_raises d Hnull) as Hraise.
    split; [done|]. split; [|split].
    + split; [congruence|].
      intros Hall. destruct Hnull as (r & Hin & Hlacks & Hg). by destruct (Hall r Hin Hlacks).
    + congruence.
    + congruence.
  - pose proof (Hreturns d Hfine) as Hreturn.
    split; [|split; [done|split]].
    + split; [congruence|].
      intros (r & Hin & Hlacks & Hg). by destruct (Hfine r Hin Hlacks).
    + congruence.
    + congruence.
Qed.

(** ** deep_check_officials.py: the order of the pairs *)

Section PairOrder.
Import DeepCheck.

Lemma keys_officials_by_school (d : list GameResult) :
  keys (officials_by_school d)
  = Spec.first_seen (domain <$> filter (fun r => Spec.tokens_of r ≠ []) d).
Proof.
  induction d as [|r d IH] using rev_ind; [done|].
  rewrite officials_by_school_snoc, visit_school_tokens, filter_app.
  destruct (decide (Spec.tokens_of r = [])) as [Hnil|Hne].
  - rewrite filter_cons_False by (by intros ?). by rewrite filter_nil, app_nil_r.
  - rewrite filter_cons_True by done. rewrite filter_nil, fmap_app. cbn [fmap list_fmap].
    rewrite keys_setitem, first_seen_snoc, IH.
    f_equal.
    destruct (decide (domain r ∈ Spec.first_seen _)) as [H1|H1],
      (decide (domain r ∈ domain <$> _)) as [H2|H2]; try done;
      rewrite elem_of_first_seen in H1; done.
Qed.

Lemma ordered_pairs_sorted {A} (R : relation A) (l : list A) (a b : A) :
  StronglySorted R l → (a, b) ∈ Spec.ordered_pairs l → R a b.
Proof.
  induction 1 as [|x l Hl IH Hx]; simpl; [by intros ?%elem_of_nil|].
  rewrite elem_of_app, list_elem_of_fmap.
  intros [(b' & [= -> ->] & Hb)|Hin]; [|by apply IH].
  rewrite Forall_forall in Hx. by apply Hx.
Qed.

Lemma length_ordered_pairs {A} (l : list A) :
  2 * length (Spec.ordered_pairs l) = length l * (length l - 1).
Proof.
  induction l as [|x l IH]; [done|].
  cbn [Spec.ordered_pairs]. rewrite length_app, length_fmap. cbn [length]. nia.
Qed.

Lemma ordered_pairs_trans {A} (l : list A) (a b c : A) :
  NoDup l → (a, b) ∈ Spec.ordered_pairs l → (b, c) ∈ Spec.ordered_pairs l →
  (a, c) ∈ Spec.ordered_pairs l.
Proof.
  intros Hl (i & j & Hij & Hi & Hj)%elem_of_ordered_pairs
    (j' & k & Hjk & Hj' & Hk)%elem_of_ordered_pairs.
  assert (j = j') as <- by (by eapply NoDup_lookup).
  apply elem_of_ordered_pairs. exists i, k. split; [lia|done].
Qed.

End PairOrder.

(** The pairs of identical crews are reported in the order in which their
    domains are first seen with a named official: in a pair the first domain
    is seen before the second.  Equal crews are reported transitively, so [k]
    domains with one crew give every pair among them; with [n] domains that
    have a crew at most [n (n - 1) / 2] pairs are reported. *)
Theorem identical_crews_follow_input_order (d : list GameResult) :
  let seen := domain <$> filter (fun r => Spec.tokens_of r ≠ []) d in
  keys (DeepCheck.officials_by_school d) = Spec.first_seen seen
  ∧ (∀ a b, (a, b) ∈ DeepCheck.identical_crews d →
            Spec.first_index a seen < Spec.first_index b seen)
  ∧ (∀ a b c, (a, b) ∈ DeepCheck.identical_crews d →
              (b, c) ∈ DeepCheck.identical_crews d →
              (a, c) ∈ DeepCheck.identical_crews d)
  ∧ 2 * length (DeepCheck.identical_crews d)
    ≤ length (Spec.first_seen seen) * (length (Spec.first_seen seen) - 1).
Proof.
  intros seen. pose proof (keys_officials_by_school d) as Hkeys. fold seen in Hkeys.
  split; [done|]. split; [|split].
  - intros a b [Hin _]%elem_of_identical_crews. rewrite Hkeys in Hin.
    by apply (ordered_pairs_sorted _ _ _ _ (first_seen_sorted seen)).
  - intros a b c [Hab Hc1]%elem_of_identical_crews [Hbc Hc2]%elem_of_identical_crews.
    apply elem_of_identical_crews. split; [|congruence].
    apply (ordered_pairs_trans _ a b c); [|done|done].
    rewrite Hkeys. apply NoDup_first_seen.
  - rewrite <- length_ordered_pairs, <- Hkeys.
    apply Nat.mul_le_mono_l.
    unfold DeepCheck.identical_crews. rewrite identical_pairs_ordered.
    apply List.filter_length_le.
Qed.

(** ** deep_check_officials.py: short simple names *)

Section Generic.
Import DeepCheck.

Lemma letter_not_space (c : ascii) :
  isupper_az c || islower_az c = true → isspace c = false ∧ (code c =? 32) = false.
Proof.
  unfold isupper_az, islower_az, isspace. generalize (code c). intros n H.
  repeat match goal with
         | H : _ || _ = true |- _ => apply orb_true_iff in H as [H|H]
         | H : _ && _ = true |- _ => apply andb_true_iff in H as [? ?]
         | H : (_ <=? _) = true |- _ => apply Nat.leb_le in H
         end;
    (split; [|apply Nat.eqb_neq; lia]);
    repeat (apply orb_false_iff; split); rewrite ?andb_false_iff, ?Nat.leb_gt, ?Nat.eqb_neq;
    lia.
Qed.

Lemma length_append (s t : string) :
  String.length (s +:+ t) = String.length s + String.length t.
Proof. induction s as [|c s IH]; [done|]. rewrite app_cons. simpl. by rewrite IH. Qed.

Lemma count_spaces_append (s t : string) :
  count_spaces (s +:+ t) = count_spaces s + count_spaces t.
Proof. induction s as [|c s IH]; [done|]. rewrite app_cons. simpl. rewrite IH. lia. Qed.

Lemma lowers_are_part (ls : string) :
  Spec.all_chars islower_az ls = true →
  Spec.all_chars (fun c => negb (isspace c)) ls = true ∧ count_spaces ls = 0.
Proof.
  induction ls as [|c ls IH]; [done|]. simpl. intros [Hc Hls]%andb_true_iff.
  destruct (letter_not_space c) as [-> ->]; [by rewrite Hc, orb_true_r|].
  by apply IH.
Qed.

Lemma capitalised_part (w : string) :
  Facts.capitalised w → Spec.part w ∧ count_spaces w = 0.
Proof.
  intros (c & ls & -> & Hc & Hne & Hls).
  destruct (lowers_are_part ls Hls) as [Hpart Hcount].
  destruct (letter_not_space c) as [Hspace H32]; [by rewrite Hc|].
  split; [split; [done|]|]; simpl.
  - by rewrite Hspace, Hpart.
  - by rewrite H32, Hcount.
Qed.

Lemma lowers_then_iff (k : string → bool) (s : string) :
  lowers_then k s = true
  ↔ ∃ ls rest, s = ls +:+ rest ∧ ls ≠ "" ∧ Spec.all_chars islower_az ls = true
               ∧ k rest = true.
Proof.
  induction s as [|c s IH]; simpl.
  - split; [done|]. intros ([|c ls] & rest & Hs & Hne & _); done.
  - rewrite andb_true_iff, orb_true_iff, IH. split.
    + intros [Hc [(ls & rest & -> & Hne & Hls & Hk)|Hk]].
      * exists (String c ls), rest. simpl. by rewrite Hc, Hls.
      * exists (String c ""), s. simpl. by rewrite Hc.
    + intros ([|c' ls] & rest & Hs & Hne & Hls & Hk); [done|].
      rewrite app_cons in Hs. injection Hs as <- ->.
      simpl in Hls. apply andb_true_iff in Hls as [Hc Hls]. split; [done|].
      destruct ls as [|c'' ls]; [by right|left].
      exists (String c'' ls), rest. done.
Qed.

Lemma capital_word_then_iff (k : string → bool) (s : string) :
  capital_word_then k s = true
  ↔ ∃ w rest, s = w +:+ rest ∧ Facts.capitalised w ∧ k rest = true.
Proof.
  destruct s as [|c s]; simpl.
  - split; [done|]. intros (w & rest & Hs & (c & ls & -> & _) & _). done.
  - rewrite andb_true_iff, lowers_then_iff. split.
    + intros [Hc (ls & rest & -> & Hne & Hls & Hk)].
      exists (String c ls), rest. split; [done|]. split; [|done]. by exists c, ls.
    + intros (w & rest & Hs & (c' & ls & -> & Hc & Hne & Hls) & Hk).
      rewrite app_cons in Hs. injection Hs as <- ->. split; [done|]. by exists ls, rest.
Qed.

Lemma space_then_iff (k : string → bool) (s : string) :
  space_then k s = true ↔ ∃ rest, s = " " +:+ rest ∧ k rest = true.
Proof.
  destruct s as [|c s]; simpl.
  - split; [done|]. by intros (rest & ? & _).
  - rewrite andb_true_iff, Nat.eqb_eq. split.
    + intros [Hc Hk]. exists s. split; [|done].
      unfold code in Hc. by rewrite <- (ascii_nat_embedding c), Hc.
    + intros (rest & [= -> ->] & Hk). done.
Qed.

Lemma match_two_words_iff (name : string) :
  match_two_words name = true
  ↔ ∃ first second tail,
      name = first +:+ " " +:+ second +:+ tail
      ∧ Facts.capitalised first ∧ Facts.capitalised second
      ∧ (tail = "" ∨ tail = String "010"%char "").
Proof.
  unfold match_two_words. rewrite capital_word_then_iff. split.
  - intros (first & rest & -> & Hfirst & (rest' & -> & Hrest)%space_then_iff).
    apply capital_word_then_iff in Hrest as (second & tail & -> & Hsecond & Htail).
    apply at_dollar_iff in Htail. by exists first, second, tail.
  - intros (first & second & tail & -> & Hfirst & Hsecond & Htail).
    exists first, (" " +:+ second +:+ tail). split; [done|]. split; [done|].
    apply space_then_iff. exists (second +:+ tail). split; [done|].
    apply capital_word_then_iff. exists second, tail. split; [done|]. split; [done|].
    by apply at_dollar_iff.
Qed.

(** What the tests after the pattern see on a name the pattern matches. *)
Lemma two_words_parts (first second tail : string) :
  Facts.capitalised first → Facts.capitalised second →
  tail = "" ∨ tail = String "010"%char "" →
  let name := first +:+ " " +:+ second +:+ tail in
  split name = [first; second] ∧ count_spaces name = 1
  ∧ String.length name
    = String.length first + 1 + String.length second + String.length tail.
Proof.
  intros [Hp1 Hc1]%capitalised_part [Hp2 Hc2]%capitalised_part Htail name.
  subst name. split; [|split].
  - unfold split. rewrite (split_from_part None first) by done.
    cbn [default]. rewrite app_cons, !app_empty_l. cbn [split_from].
    change (isspace " ") with true. cbv iota.
    rewrite (split_from_part None second) by done. cbn [default]. rewrite app_empty_l.
    by destruct Htail as [->| ->].
  - rewrite !count_spaces_append, Hc1, Hc2. by destruct Htail as [->| ->].
  - rewrite !length_append. simpl. lia.
Qed.

Lemma is_generic_total (name : string) : is_Some (is_generic name).
Proof.
  unfold is_generic.
  destruct (match_two_words name) eqn:Hmatch; simpl; [|by eexists].
  apply match_two_words_iff in Hmatch
    as (first & second & tail & -> & Hfirst & Hsecond & Htail).
  destruct (two_words_parts first second tail Hfirst Hsecond Htail)
    as (-> & -> & _).
  simpl. by repeat case_match.
Qed.

Lemma is_generic_iff (name : string) :
  is_generic name = Some true ↔ Facts.short_simple name.
Proof.
  unfold is_generic, Facts.short_simple. split.
  - destruct (match_two_words name) eqn:Hmatch; simpl; [|done].
    apply match_two_words_iff in Hmatch
      as (first & second & tail & -> & Hfirst & Hsecond & Htail).
    destruct (two_words_parts first second tail Hfirst Hsecond Htail)
      as (-> & -> & _).
    destruct (_ <? 12); [|done]. simpl.
    destruct (String.length first <? 5) eqn:H1; [|done]. simpl.
    intros [= H2]. apply Nat.ltb_lt in H1, H2.
    by exists first, second, tail.
  - intros (first & second & tail & -> & Hfirst & Hsecond & H1 & H2 & Htail).
    destruct (two_words_parts first second tail Hfirst Hsecond Htail)
      as (-> & -> & ->).
    rewrite (proj2 (match_two_words_iff _))
      by (by exists first, second, tail).
    assert (String.length tail ≤ 1) by (by destruct Htail as [->| ->]; simpl; lia).
    rewrite (proj2 (Nat.ltb_lt _ 12)) by lia. simpl.
    rewrite (proj2 (Nat.ltb_lt _ 5)) by done. simpl.
    by rewrite (proj2 (Nat.ltb_lt _ 6)).
Qed.

Lemma add_generic_named (r : GameResult) (found : list (string * string * string * string))
    (item : string * option string) :
  add_generic r (Some found) item
  = Some (found ++ match Spec.named item with
                   | Some pn =>
                       if decide (is_generic pn.2 = Some true)
                       then [(domain r, pn.1, pn.2, "Very short simple name")] else []
                   | None => []
                   end).
Proof.
  destruct item as [position [[|c name]|]]; unfold add_generic, Spec.named; simpl;
    [by rewrite app_nil_r| |by rewrite app_nil_r].
  destruct (is_generic_total (String c name)) as [[|] Hg]; rewrite Hg; simpl.
  - done.
  - by rewrite app_nil_r.
Qed.

Lemma foldl_generic (es : list (string * string * string))
    (acc : list (string * string * string * string)) :
  foldl (fun st e =>
           found ← st;
           Some (found ++ if decide (is_generic e.2 = Some true)
                          then [(e.1.1, e.1.2, e.2, "Very short simple name")]
                          else []))
    (Some acc) es
  = Some (acc ++ ((fun e : string * string * string =>
                     (e.1.1, e.1.2, e.2, "Very short simple name"))
                    <$> filter (fun e => is_generic e.2 = Some true) es)).
Proof.
  revert acc. induction es as [|e es IH]; intros acc; [by rewrite app_nil_r|].
  cbn [foldl]. simpl. rewrite IH.
  destruct (decide (is_generic e.2 = Some true)) as [He|He].
  - rewrite filter_cons_True by done. csimpl. by rewrite <- app_assoc.
  - rewrite filter_cons_False by done. by rewrite app_nil_r.
Qed.

End Generic.

(** The block that collects "generic" names never raises: on every name that
    reaches [parts[0]] and [parts[1]] the split has two parts.  It collects,
    in the order of the flattened list, the entries whose name is two
    capitalised words of letters A-Z and a-z, the first of at most four
    characters and the second of at most five, with one space between them
    and at most a line feed after them.  The tests [len(name) < 12] and
    [name.count(' ') == 1] reject no such name. *)
Theorem generic_patterns_are_short_simple_names (d : list GameResult) :
  DeepCheck.generic_patterns d
  = Some ((fun e : string * string * string =>
             (e.1.1, e.1.2, e.2, "Very short simple name"))
            <$> filter (fun e => DeepCheck.is_generic e.2 = Some true)
                  (DeepCheck.all_names d))
  ∧ (∀ name, is_Some (DeepCheck.is_generic name))
  ∧ (∀ name, DeepCheck.is_generic name = Some true ↔ Facts.short_simple name).
Proof.
  split; [|split; [apply is_generic_total|apply is_generic_iff]].
  unfold DeepCheck.generic_patterns. rewrite all_names_entries.
  rewrite (foldl_entries DeepCheck.add_generic
             (fun st e =>
                found ← st;
                Some (found ++ if decide (DeepCheck.is_generic e.2 = Some true)
                               then [(e.1.1, e.1.2, e.2, "Very short simple name")]
                               else []))).
  - by rewrite foldl_generic.
  - intros r [found|] item Hitem; [|by destruct item as [? [?|]]].
    by rewrite add_generic_named, Hitem, app_nil_r.
  - intros r [found|] item pn Hitem; [|by destruct item as [? [?|]]].
    by rewrite add_generic_named, Hitem.
Qed.

(** ** The order of the records *)

Section RecordOrder.

Lemma entries_Permutation (d d' : list GameResult) :
  d ≡ₚ d' → Spec.entries d ≡ₚ Spec.entries d'.
Proof. unfold Spec.entries. by intros ->. Qed.

Lemma occurrences_Permutation (x : string) (xs xs' : list string) :
  xs ≡ₚ xs' → Spec.occurrences x xs = Spec.occurrences x xs'.
Proof. unfold Spec.occurrences. by intros ->. Qed.

Lemma NoDup_tally (xs : list string) : NoDup (Spec.tally xs).
Proof.
  apply (NoDup_fmap_1 fst). fold (keys (Spec.tally xs)).
  rewrite keys_tally. apply NoDup_first_seen.
Qed.

Lemma tally_Permutation (xs xs' : list string) :
  xs ≡ₚ xs' → Spec.tally xs ≡ₚ Spec.tally xs'.
Proof.
  intros Hperm. apply NoDup_Permutation; [apply NoDup_tally..|].
  intros [n k]. rewrite !elem_of_tally, (occurrences_Permutation n xs xs' Hperm).
  by rewrite Hperm.
Qed.

Lemma filter_tally_Permutation (p : string * nat → bool) (xs xs' : list string) :
  xs ≡ₚ xs' → List.filter p (Spec.tally xs) ≡ₚ List.filter p (Spec.tally xs').
Proof.
  intros Hperm. apply NoDup_Permutation.
  - apply NoDup_ListNoDup, List.NoDup_filter, NoDup_ListNoDup, NoDup_tally.
  - apply NoDup_ListNoDup, List.NoDup_filter, NoDup_ListNoDup, NoDup_tally.
  - intros item. rewrite !list_elem_of_In, !filter_In, <- !list_elem_of_In.
    by rewrite (tally_Permutation xs xs' Hperm).
Qed.

(** The counts of [most_common], without the names. *)
Lemma counts_sorted (tie : relation (string * nat)) (l : dict nat) :
  StronglySorted tie l → StronglySorted (fun a b => b ≤ a) (values (sorted_desc l)).
Proof.
  intros Hl. unfold values.
  apply (StronglySorted_fmap snd (Spec.by_count_then tie)); [|by apply sorted_desc_sorted].
  intros a b [Hlt|[Heq _]]; lia.
Qed.

Lemma counts_Permutation (xs xs' : list string) :
  xs ≡ₚ xs' →
  values (sorted_desc (Spec.tally xs)) = values (sorted_desc (Spec.tally xs')).
Proof.
  intros Hperm. apply (StronglySorted_unique_strong (fun a b => b ≤ a)).
  - intros; lia.
  - eapply counts_sorted, tally_sorted.
  - eapply counts_sorted, tally_sorted.
  - unfold values. by rewrite !sorted_desc_perm, (tally_Permutation xs xs' Hperm).
Qed.

End RecordOrder.

(** The figures do not depend on the order of the records.  On a reordered
    dataset the total and the number of unique names are the same, the
    counter and the duplicates hold the same names with the same counts, the
    position counts are the same, and the counts of the top ten read the
    same line by line: only which of several names with one count is listed
    first, or makes the tenth place, can change. *)
Theorem figures_ignore_record_order (d d' : list GameResult) :
  d ≡ₚ d' →
  CheckOfficials.total (CheckOfficials.name_statistics d)
  = CheckOfficials.total (CheckOfficials.name_statistics d')
  ∧ CheckOfficials.unique (CheckOfficials.name_statistics d)
    = CheckOfficials.unique (CheckOfficials.name_statistics d')
  ∧ CheckOfficials.name_counts d ≡ₚ CheckOfficials.name_counts d'
  ∧ CheckOfficials.duplicate_officials d ≡ₚ CheckOfficials.duplicate_officials d'
  ∧ values (CheckOfficials.top10 (CheckOfficials.name_statistics d))
    = values (CheckOfficials.top10 (CheckOfficials.name_statistics d'))
  ∧ DeepCheck.position_counts d ≡ₚ DeepCheck.position_counts d'
  ∧ values (DeepCheck.position_frequency d) = values (DeepCheck.position_frequency d').
Proof.
  intros Hperm. pose proof (entries_Permutation d d' Hperm) as Hentries.
  assert (snd <$> Spec.entries d ≡ₚ snd <$> Spec.entries d') as Hnames
    by (by rewrite Hentries).
  assert ((fun e : string * string * string => e.1.2) <$> Spec.entries d
          ≡ₚ (fun e : string * string * string => e.1.2) <$> Spec.entries d') as Hpositions
    by (by rewrite Hentries).
  unfold CheckOfficials.name_statistics, CheckOfficials.duplicate_officials,
    CheckOfficials.name_counts, DeepCheck.position_frequency, most_common.
  cbn [CheckOfficials.total CheckOfficials.unique CheckOfficials.top10].
  rewrite !collect_entries, !position_counts_entries, !Counter_tally, !size_names.
  cbn [CheckOfficials.all_officials].
  split; [by rewrite Hnames|].
  split.
  { apply Permutation_length, NoDup_Permutation; [apply NoDup_first_seen..|].
    intros x. by rewrite !elem_of_first_seen, Hnames. }
  split; [by apply tally_Permutation|].
  split; [by apply filter_tally_Permutation|].
  split.
  { unfold values. rewrite !fmap_take. f_equal. by apply counts_Permutation. }
  split; [by apply tally_Permutation|by apply counts_Permutation].
Qed.

(** The sample dataset and its reverse. *)
Lemma figures_ignore_record_order_witness :
  CheckOfficials.total (CheckOfficials.name_statistics Sample.dataset)
  = CheckOfficials.total (CheckOfficials.name_statistics (reverse Sample.dataset))
  ∧ CheckOfficials.unique (CheckOfficials.name_statistics Sample.dataset)
    = CheckOfficials.unique (CheckOfficials.name_statistics (reverse Sample.dataset))
  ∧ CheckOfficials.name_counts Sample.dataset
    ≡ₚ CheckOfficials.name_counts (reverse Sample.dataset)
  ∧ CheckOfficials.duplicate_officials Sample.dataset
    ≡ₚ CheckOfficials.duplicate_officials (reverse Sample.dataset)
  ∧ values (CheckOfficials.top10 (CheckOfficials.name_statistics Sample.dataset))
    = values (CheckOfficials.top10 (CheckOfficials.name_statistics (reverse Sample.dataset)))
  ∧ DeepCheck.position_counts Sample.dataset
    ≡ₚ DeepCheck.position_counts (reverse Sample.dataset)
  ∧ values (DeepCheck.position_frequency Sample.dataset)
    = values (DeepCheck.position_frequency (reverse Sample.dataset)).
Proof.
  apply (figures_ignore_record_order Sample.dataset (reverse Sample.dataset)).
  symmetry. apply reverse_Permutation.
Defined.
